(** * creme: the iSOUP-Tree regressor and the random under-sampler

    A shallow embedding of [creme/tree/isoup_tree_regressor.py] and of
    [RandomUnderSampler] from [creme/imblearn/random.py], with the properties
    their specification states about them.

    Conventions of the embedding.
    - A Python [dict] or [set] whose iteration order is not observed is a
      [gmap] or a [gset]; one whose order is observed ([max] over the keys of
      a [Counter], [deepcopy] over the entries of a dict) is an association
      list in insertion order.
    - A method that mutates [self] takes the object and returns the new one.
      Mutable objects that several nodes could reference (the leaf models) live
      in an explicit store and are named by their location.
    - A call that can raise returns a [result]; a call whose effect must be
      kept when it raises returns the new state next to an optional exception.
    - Python numbers are kept abstract (class [Number]): nothing proved below
      depends on how floating point rounds.  Exact rationals are the instance
      used to run the definitions. *)

From Stdlib Require Import QArith Reals Lra Sorted.
From stdpp Require Import base gmap sets list strings.

Set Warnings "-register-all,-clear-no-such-hyp".

Local Open Scope string_scope.
Local Open Scope list_scope.

(** ** Python values *)

Module Py.

(** The exceptions the modelled code can raise. *)
Inductive exn : Set :=
| KeyError
| ZeroDivisionError
| AttributeError
| UnboundLocalError
| ValueError.

Inductive result (A : Type) : Type :=
| Ok (a : A)
| Raise (e : exn).
Arguments Ok {A} a.
Arguments Raise {A} e.

(** Sequencing: the first exception raised ends the computation. *)
Global Instance result_ret : MRet result := λ A a, Ok a.
Global Instance result_bind : MBind result := λ A B k r,
  match r with
  | Ok a => k a
  | Raise e => Raise e
  end.

Global Instance result_fmap : FMap result := λ A B f r,
  match r with
  | Ok a => Ok (f a)
  | Raise e => Raise e
  end.

Definition returns {A} (r : result A) : Prop := ∃ a, r = Ok a.

(** Dictionary keys: feature and target identifiers are [str] or [int]. *)
Inductive key : Set :=
| KStr (s : string)
| KInt (i : Z).

Definition key_to_sum (k : key) : string + Z :=
  match k with KStr s => inl s | KInt i => inr i end.
Definition key_of_sum (s : string + Z) : key :=
  match s with inl s => KStr s | inr i => KInt i end.

(** Numbers, as far as the modelled code uses them.  [num_div] is the
    quotient for a divisor that is not zero; Python's [/] tests the divisor
    first (see [truediv]). *)
Class Number (F : Type) : Type := {
  num_of_nat : nat → F;
  num_is_zero : F → bool;
  num_mul : F → F → F;
  num_div : F → F → F;
  num_lt : F → F → bool
}.

(** [a / b]: raises [ZeroDivisionError] on a zero divisor. *)
Definition truediv {F} `{Number F} (a b : F) : result F :=
  if num_is_zero b then Raise ZeroDivisionError else Ok (num_div a b).

End Py.
Import Py.

Global Instance key_eq_dec : EqDecision key.
Proof. solve_decision. Defined.

Global Instance key_countable : Countable key.
Proof.
  apply (inj_countable' key_to_sum key_of_sum).
  intros []; reflexivity.
Defined.

(** Exact rationals as numbers, kept in lowest terms so that equal numbers
    are equal terms. *)
Global Instance Q_number : Number Q := {|
  num_of_nat n := inject_Z (Z.of_nat n);
  num_is_zero q := Qeq_bool q 0;
  num_mul a b := Qred (a * b);
  num_div a b := Qred (a / b);
  num_lt a b := match (a ?= b)%Q with Lt => true | _ => false end
|}.

(** ** VectorDict *)

Module VectorDict.
Section VectorDict.
Context {F : Type} `{Number F}.

(** Modelled from the spec: [creme.utils.VectorDict] is not among the
    sources; section 2 describes it as a sparse numeric vector keyed by
    target identifier with elementwise arithmetic.  Division by a scalar
    divides every stored entry, so it raises exactly when there is an
    entry to divide and the scalar is zero. *)
Definition truediv_scalar (d : gmap key F) (c : F) : result (gmap key F) :=
  if decide (size d = 0%nat) then Ok ∅
  else if num_is_zero c then Raise ZeroDivisionError
  else Ok ((λ v, num_div v c) <$> d).

(** Modelled from the spec: [VectorDict.to_dict()], also not among the
    sources, gives the stored entries as a plain dict. *)
Definition to_dict (d : gmap key F) : gmap key F := d.
End VectorDict.
End VectorDict.

(** ** The iSOUP-Tree regressor *)

Module ISoup.

(** Leaf models are mutable objects: a node holds references to them. *)
Abbreviation loc := nat (only parsing).

(** A [_leaf_models] dict: target key to model object, in insertion order. *)
Abbreviation ModelMap := (list (key * loc)) (only parsing).

(** Modelled from the spec: the three leaf-prediction constants are
    attributes of [HoeffdingTreeRegressor], which is not among the sources;
    the spec names the modes mean, model and adaptive. *)
Definition _TARGET_MEAN : string := "mean".
Definition _MODEL : string := "model".
Definition _ADAPTIVE : string := "adaptive".

Definition dquote : string := String (Ascii.ascii_of_nat 34) EmptyString.

(** ['Invalid <what> option "{}", will use default "{}"'.format(v, default)] *)
Definition invalid_option (what v default : string) : string :=
  "Invalid " +:+ what +:+ " option " +:+ dquote +:+ v +:+ dquote
    +:+ ", will use default " +:+ dquote +:+ default +:+ dquote.

Section Tree.
Context {F : Type} `{Number F}.
(** The state of a leaf model (a [base.Regressor]). *)
Context {Model : Type}.

(** The store of model objects. *)
Abbreviation Store := (gmap loc Model) (only parsing).

(** [node.stats]: [stats[0]] the observed weight, [stats[1]] the sum of
    the targets, [stats[2]] the sum of their squares.  A node's [stats]
    is [None] here when the dict is empty (a leaf made without
    [initial_stats]), so that indexing it raises [KeyError]. *)
Record Stats : Type := {
  stats_0 : F;
  stats_1 : gmap key F;
  stats_2 : gmap key F
}.

(** The learning nodes the factory builds: [active] tells the
    [ActiveLearningNode...] class from the [InactiveLearningNode...] one. *)
Inductive LearningNode : Type :=
| LearningNodeMean (active : bool) (stats : option Stats) (depth : nat)
| LearningNodeModelMultiTarget (active : bool) (stats : option Stats)
    (depth : nat) (leaf_models : ModelMap)
| LearningNodeAdaptiveMultiTarget (active : bool) (stats : option Stats)
    (depth : nat) (leaf_models : ModelMap) (fmse_mean fmse_model : gmap key F).

Definition leaf_stats (n : LearningNode) : option Stats :=
  match n with
  | LearningNodeMean _ s _
  | LearningNodeModelMultiTarget _ s _ _
  | LearningNodeAdaptiveMultiTarget _ s _ _ _ _ => s
  end.

Definition leaf_depth (n : LearningNode) : nat :=
  match n with
  | LearningNodeMean _ _ d
  | LearningNodeModelMultiTarget _ _ d _
  | LearningNodeAdaptiveMultiTarget _ _ d _ _ _ => d
  end.

(** Whether the node is of an [ActiveLearningNode...] class. *)
Definition is_active (n : LearningNode) : bool :=
  match n with
  | LearningNodeMean a _ _
  | LearningNodeModelMultiTarget a _ _ _
  | LearningNodeAdaptiveMultiTarget a _ _ _ _ _ => a
  end.

(** The leaf-prediction mode whose class the node is of. *)
Definition leaf_kind (n : LearningNode) : string :=
  match n with
  | LearningNodeMean _ _ _ => _TARGET_MEAN
  | LearningNodeModelMultiTarget _ _ _ _ => _MODEL
  | LearningNodeAdaptiveMultiTarget _ _ _ _ _ _ => _ADAPTIVE
  end.

(** Attribute reads; a node of a class without the attribute raises. *)
Definition _leaf_models (n : LearningNode) : result ModelMap :=
  match n with
  | LearningNodeMean _ _ _ => Raise AttributeError
  | LearningNodeModelMultiTarget _ _ _ m
  | LearningNodeAdaptiveMultiTarget _ _ _ m _ _ => Ok m
  end.

Definition _fmse_mean (n : LearningNode) : result (gmap key F) :=
  match n with
  | LearningNodeAdaptiveMultiTarget _ _ _ _ fm _ => Ok fm
  | _ => Raise AttributeError
  end.

Definition _fmse_model (n : LearningNode) : result (gmap key F) :=
  match n with
  | LearningNodeAdaptiveMultiTarget _ _ _ _ _ fm => Ok fm
  | _ => Raise AttributeError
  end.

(** A split test on one feature: the branch an observed value goes to
    (negative when the value fits no branch). *)
Record SplitTest : Type := {
  att_idx : key;
  branch_for_value : F → Z
}.

(** [children] is the split node's dict from branch index to child. *)
Inductive Node : Type :=
| Leaf (n : LearningNode)
| SplitNode (stats : option Stats) (depth : nat) (split_test : SplitTest)
    (children : list (Z * Node)).

Definition node_stats (n : Node) : option Stats :=
  match n with
  | Leaf l => leaf_stats l
  | SplitNode s _ _ _ => s
  end.

Record FoundNode : Type := {
  found_node : option Node;
  found_parent : option Node;
  found_parent_branch : Z
}.

(** The attributes inherited from [HoeffdingTreeRegressor] that the
    modelled methods read or write. *)
Record HoeffdingTreeRegressor : Type := {
  grace_period : F;
  split_confidence : F;
  tie_threshold : F;
  _leaf_prediction : string;
  _split_criterion : string;
  _tree_root : option Node
}.

(** The regressor object: the inherited attributes and [_targets], the
    one attribute this class adds. *)
Record iSOUPTreeRegressor : Type := {
  super :> HoeffdingTreeRegressor;
  _targets : gset key
}.

Definition with_leaf_prediction (v : string) (self : iSOUPTreeRegressor) :=
  {| super :=
       {| grace_period := grace_period self;
          split_confidence := split_confidence self;
          tie_threshold := tie_threshold self;
          _leaf_prediction := v;
          _split_criterion := _split_criterion self;
          _tree_root := _tree_root self |};
     _targets := _targets self |}.

Definition with_split_criterion (v : string) (self : iSOUPTreeRegressor) :=
  {| super :=
       {| grace_period := grace_period self;
          split_confidence := split_confidence self;
          tie_threshold := tie_threshold self;
          _leaf_prediction := _leaf_prediction self;
          _split_criterion := v;
          _tree_root := _tree_root self |};
     _targets := _targets self |}.

(** *** Configuration setters

    Each returns the object and the lines it printed. *)

Definition set_leaf_prediction (leaf_prediction : string)
    (self : iSOUPTreeRegressor) : iSOUPTreeRegressor * list string :=
  if bool_decide (leaf_prediction ∉ [_TARGET_MEAN; _MODEL; _ADAPTIVE]) then
    (with_leaf_prediction _MODEL self,
     [invalid_option "leaf_prediction" leaf_prediction _MODEL])
  else
    (with_leaf_prediction leaf_prediction self, []).

Definition set_split_criterion (split_criterion : string)
    (self : iSOUPTreeRegressor) : iSOUPTreeRegressor * list string :=
  let split_criterion :=
    if bool_decide (split_criterion = "vr") then "icvr" else split_criterion in
  if bool_decide (split_criterion ≠ "icvr") then
    (with_split_criterion "icvr" self,
     [invalid_option "split_criterion" split_criterion "icvr"])
  else
    (with_split_criterion split_criterion self, []).

(** Modelled from the spec: [__init__] first runs the inherited
    constructor, which is not among the sources; it stores the parameters,
    assigning [leaf_prediction] and its own default criterion ['vr'] through
    the setters above, and leaves the tree without a root.  The last two
    assignments, of ['icvr'] and of the empty target set, are in the
    source. *)
Definition init (grace_period split_confidence tie_threshold : F)
    (leaf_prediction : string) : iSOUPTreeRegressor * list string :=
  let self :=
    {| super :=
         {| grace_period := grace_period;
            split_confidence := split_confidence;
            tie_threshold := tie_threshold;
            _leaf_prediction := EmptyString;
            _split_criterion := EmptyString;
            _tree_root := None |};
       _targets := ∅ |} in
  let '(self, out1) := set_leaf_prediction leaf_prediction self in
  let '(self, out2) := set_split_criterion "vr" self in
  let '(self, out3) := set_split_criterion "icvr" self in
  (self, (out1 ++ out2 ++ out3)%list).

(** *** The node factory *)

(** [deepcopy] of a [_leaf_models] dict.  The entries are copied in dict
    order; [memo] sends each object already copied to its copy, so an
    object the dict holds twice is copied once.  A model object is copied
    whole into a location the store does not use yet.  (References never
    dangle in Python; the clause for an unallocated location keeps the
    function total.) *)
Fixpoint deepcopy_entries (memo : gmap loc loc) (h : Store) (m : ModelMap)
    : ModelMap * Store :=
  match m with
  | [] => ([], h)
  | (k, l) :: m =>
      match memo !! l with
      | Some l' =>
          let '(r, h) := deepcopy_entries memo h m in ((k, l') :: r, h)
      | None =>
          match h !! l with
          | Some obj =>
              let l' := fresh (dom h) in
              let '(r, h) :=
                deepcopy_entries (<[l := l']> memo) (<[l' := obj]> h) m in
              ((k, l') :: r, h)
          | None =>
              let '(r, h) := deepcopy_entries memo h m in ((k, l) :: r, h)
          end
      end
  end.

Definition deepcopy (h : Store) (m : ModelMap) : ModelMap * Store :=
  deepcopy_entries ∅ h m.

(** Reading a local variable that no assignment has bound. *)
Definition read_local {A} (v : option A) : result A :=
  match v with
  | Some a => Ok a
  | None => Raise UnboundLocalError
  end.

(** Modelled from the spec: the node constructors are in
    [creme/tree/_nodes], not among the sources.  A new adaptive node
    starts with no fading error recorded for any target. *)
Definition new_adaptive_node (active : bool) (initial_stats : option Stats)
    (depth : nat) (leaf_models : ModelMap) : LearningNode :=
  LearningNodeAdaptiveMultiTarget active initial_stats depth leaf_models ∅ ∅.

(** Attribute assignments on a node that was built adaptive. *)
Definition assign_fmse_mean (v : gmap key F) (n : LearningNode) : LearningNode :=
  match n with
  | LearningNodeAdaptiveMultiTarget a s d m _ fmo =>
      LearningNodeAdaptiveMultiTarget a s d m v fmo
  | _ => n
  end.

Definition assign_fmse_model (v : gmap key F) (n : LearningNode) : LearningNode :=
  match n with
  | LearningNodeAdaptiveMultiTarget a s d m fme _ =>
      LearningNodeAdaptiveMultiTarget a s d m fme v
  | _ => n
  end.

(** [_new_learning_node(initial_stats, parent, is_active)].  An absent
    [initial_stats] and the empty dict it is replaced by are both [None]. *)
Definition _new_learning_node (self : iSOUPTreeRegressor)
    (initial_stats : option Stats) (parent : option LearningNode)
    (is_active : bool) (h : Store) : result (LearningNode * Store) :=
  let depth :=
    match parent with
    | Some p => (leaf_depth p + 1)%nat
    | None => 0%nat
    end in
  '(leaf_models, h) ←
    (if bool_decide (_leaf_prediction self ∈ [_MODEL; _ADAPTIVE]) then
       match parent with
       | None => Ok (Some [], h)
       | Some p =>
           m ← _leaf_models p;
           let '(m, h) := deepcopy h m in Ok (Some m, h)
       end
     else Ok (None, h));
  if is_active then
    if bool_decide (_leaf_prediction self = _TARGET_MEAN) then
      Ok (LearningNodeMean true initial_stats depth, h)
    else if bool_decide (_leaf_prediction self = _MODEL) then
      m ← read_local leaf_models;
      Ok (LearningNodeModelMultiTarget true initial_stats depth m, h)
    else
      m ← read_local leaf_models;
      let new_adaptive := new_adaptive_node true initial_stats depth m in
      match parent with
      | Some p =>
          v ← _fmse_mean p;
          let new_adaptive := assign_fmse_mean v new_adaptive in
          v ← _fmse_model p;
          let new_adaptive := assign_fmse_model v new_adaptive in
          Ok (new_adaptive, h)
      | None => Ok (new_adaptive, h)
      end
  else
    if bool_decide (_leaf_prediction self = _TARGET_MEAN) then
      Ok (LearningNodeMean false initial_stats depth, h)
    else if bool_decide (_leaf_prediction self = _MODEL) then
      m ← read_local leaf_models;
      Ok (LearningNodeModelMultiTarget false initial_stats depth m, h)
    else
      m ← read_local leaf_models;
      let new_adaptive := new_adaptive_node false initial_stats depth m in
      match parent with
      | Some p =>
          v ← _fmse_mean p;
          let new_adaptive := assign_fmse_mean v new_adaptive in
          v ← _fmse_model p;
          let new_adaptive := assign_fmse_mean v new_adaptive in
          Ok (new_adaptive, h)
      | None => Ok (new_adaptive, h)
      end.

(** *** Traversal *)

(** Modelled from the spec: the split tests are in [creme/tree], not among
    the sources.  A test looks its feature up in [x]; a missing feature
    gives no branch (-1). *)
Definition branch_for_instance (t : SplitTest) (x : gmap key F) : Z :=
  match x !! att_idx t with
  | Some v => branch_for_value t v
  | None => (-1)%Z
  end.

(** Modelled from the spec: [filter_instance_to_leaf], a method of the
    nodes in [creme/tree/_nodes], not among the sources, is the traversal
    from the root toward a leaf.  It stops at a leaf; it stops at a split
    node, reported with its own parent, when the test gives no branch; and
    when the branch has no child yet it reports no node, with the split node
    as the parent (the case [predict_one] handles by reading
    [found_node.parent]). *)
Fixpoint filter_instance_to_leaf (x : gmap key F) (n : Node)
    (parent : option Node) (parent_branch : Z) : FoundNode :=
  match n with
  | Leaf _ =>
      {| found_node := Some n; found_parent := parent;
         found_parent_branch := parent_branch |}
  | SplitNode _ _ t children =>
      let child_index := branch_for_instance t x in
      if (0 <=? child_index)%Z then
        (fix get_child (cs : list (Z * Node)) : FoundNode :=
           match cs with
           | [] =>
               {| found_node := None; found_parent := Some n;
                  found_parent_branch := child_index |}
           | (i, child) :: cs =>
               if (i =? child_index)%Z
               then filter_instance_to_leaf x child (Some n) child_index
               else get_child cs
           end) children
      else
        {| found_node := Some n; found_parent := parent;
           found_parent_branch := parent_branch |}
  end.

(** [(node.stats[1] / node.stats[0]).to_dict()] *)
Definition mean_prediction (stats : option Stats) : result (gmap key F) :=
  match stats with
  | None => Raise KeyError
  | Some s =>
      r ← VectorDict.truediv_scalar (stats_1 s) (stats_0 s);
      Ok (VectorDict.to_dict r)
  end.

Section Methods.
(** The two calls into code that is not among the sources. *)

(** [node.predict_one(x, tree=self)] of a learning node. *)
Variable leaf_predict_one :
  LearningNode → gmap key F → iSOUPTreeRegressor → Store →
  result (gmap key F).

(** [super().learn_one(x, y, sample_weight=...)]: it works on the
    inherited attributes and the store, may read [_targets] through
    the nodes it calls, and may raise after having changed either. *)
Variable super_learn_one :
  gset key → gmap key F → gmap key F → F →
  HoeffdingTreeRegressor → Store →
  HoeffdingTreeRegressor * Store * option exn.

(** [learn_one(x, y, sample_weight=w)]; [VectorDict(data=y)] holds the
    entries of [y]. *)
Definition learn_one (x y : gmap key F) (sample_weight : F)
    (self : iSOUPTreeRegressor) (h : Store)
    : iSOUPTreeRegressor * Store * option exn :=
  let targets := _targets self ∪ dom y in
  let '(base, h, e) :=
    super_learn_one targets x y sample_weight (super self) h in
  ({| super := base; _targets := targets |}, h, e).

(** A sequence of [learn_one] calls; a caller may go on after a call
    that raised, so the state is threaded through in either case. *)
Definition learn_many (calls : list (gmap key F * gmap key F * F))
    (self : iSOUPTreeRegressor) (h : Store) : iSOUPTreeRegressor * Store :=
  foldl (λ '(self, h) '(x, y, w), (learn_one x y w self h).1)
        (self, h) calls.

(** [predict_one(x)]; [Ok None] is Python's [None]. *)
Definition predict_one (self : iSOUPTreeRegressor) (h : Store)
    (x : gmap key F) : result (option (gmap key F)) :=
  match _tree_root self with
  | Some root =>
      let found := filter_instance_to_leaf x root None (-1) in
      match found_node found with
      | Some (Leaf l) => Some <$> leaf_predict_one l x self h
      | Some (SplitNode stats _ _ _) => Some <$> mean_prediction stats
      | None =>
          match found_parent found with
          | Some parent => Some <$> mean_prediction (node_stats parent)
          | None => Raise AttributeError
          end
      end
  | None => Ok None
  end.

End Methods.

End Tree.

(** *** Sample objects, over exact rationals *)

Definition target_t : key := KStr "t".

(** Modelled from the spec: [predict_one] of a leaf is in
    [creme/tree/_nodes], not among the sources; this is the mean strategy
    of section 4.4, elementwise sum over count. *)
Definition mean_leaf_predict_one {Model : Type} (l : LearningNode (F := Q))
    (x : gmap key Q) (self : iSOUPTreeRegressor (F := Q))
    (h : gmap nat Model) : result (gmap key Q) :=
  mean_prediction (leaf_stats l).

(** An inherited [learn_one] that changes nothing and does not raise. *)
Definition idle_learn_one {Model : Type} (targets : gset key)
    (x y : gmap key Q) (w : Q) (base : HoeffdingTreeRegressor (F := Q))
    (h : gmap nat Model)
    : HoeffdingTreeRegressor (F := Q) * gmap nat Model * option exn :=
  (base, h, None).

(** A regressor as constructed with the default parameters and the given
    mode. *)
Definition new_tree (leaf_prediction : string) : iSOUPTreeRegressor (F := Q) :=
  (init 200%Q (1 # 10000000)%Q (5 # 100)%Q leaf_prediction).1.

Definition with_root (root : Node (F := Q))
    (self : iSOUPTreeRegressor (F := Q)) : iSOUPTreeRegressor (F := Q) :=
  {| super :=
       {| grace_period := grace_period self;
          split_confidence := split_confidence self;
          tie_threshold := tie_threshold self;
          _leaf_prediction := _leaf_prediction self;
          _split_criterion := _split_criterion self;
          _tree_root := Some root |};
     _targets := _targets self |}.


Definition seen_split (children : list (Z * Node (F := Q))) : Node (F := Q) :=
  SplitNode
    (Some {| stats_0 := 10%Q;
             stats_1 := {[ target_t := 20%Q ]};
             stats_2 := {[ target_t := 40%Q ]} |})
    0
    {| att_idx := KStr "a"; branch_for_value := λ _, 0%Z |}
    children.

Definition x_a : gmap key Q := {[ KStr "a" := 1%Q ]}.

(** An adaptive leaf about to be replaced: its fading errors differ. *)
Definition adaptive_parent : LearningNode (F := Q) :=
  LearningNodeAdaptiveMultiTarget true None 0 []
    {[ target_t := 1%Q ]} {[ target_t := 2%Q ]}.

(** A model leaf holding one model, stored at location 0. *)
Definition model_parent : LearningNode (F := Q) :=
  LearningNodeModelMultiTarget true None 0 [(target_t, 0%nat)].

End ISoup.

(** ** Split evaluation *)

Module SplitEvaluation.
Import ISoup.

Local Open Scope R_scope.

(** The split decision compares a square root of a logarithm with the
    merits: it is stated over the real numbers. *)
Definition Rltb (a b : R) : bool := if Rlt_dec a b then true else false.

Global Instance R_number : Number R := {|
  num_of_nat := INR;
  num_is_zero r := if Req_dec_T r 0 then true else false;
  num_mul := Rmult;
  num_div := Rdiv;
  num_lt := Rltb
|}.

Section SplitEvaluation.
Context {Model : Type}.
(** The value range of the split criterion. *)
Variable range_of_merit : R.

(** Modelled from the spec: split evaluation is a method of
    [HoeffdingTreeRegressor], which is not among the sources.  A candidate
    split has a merit, the test it would install ([None] for the implicit
    do-not-split candidate) and the aggregated statistics of each branch. *)
Record SplitSuggestion : Type := {
  merit : R;
  suggested_test : option (SplitTest (F := R));
  resulting_stats : list (Stats (F := R))
}.

(** Modelled from the spec: the implicit do-not-split candidate of the
    absent split evaluation, of merit 0. *)
Definition do_not_split : SplitSuggestion :=
  {| merit := 0; suggested_test := None; resulting_stats := [] |}.

(** Modelled from the spec: the absent split evaluation sorts the
    candidates by descending merit (here by insertion; among equal merits
    the earlier candidate stays first). *)
Fixpoint insert_desc (c : SplitSuggestion) (l : list SplitSuggestion)
    : list SplitSuggestion :=
  match l with
  | [] => [c]
  | d :: l' =>
      if Rltb (merit d) (merit c) then c :: d :: l'
      else d :: insert_desc c l'
  end.

Definition sort_desc (l : list SplitSuggestion) : list SplitSuggestion :=
  foldr insert_desc [] l.

(** Modelled from the spec: the confidence bound of the absent split
    evaluation, [sqrt(R² · ln(1 / split_confidence) / (2 n))]. *)
Definition hoeffding_bound (range split_confidence n : R) : R :=
  sqrt (range * range * ln (1 / split_confidence) / (2 * n)).

(** Modelled from the spec: the commit test of the absent split
    evaluation, [(m1 − m2 > ε) or (ε < tie_threshold and m1 > 0)]. *)
Definition should_split (m1 m2 eps tie_threshold : R) : bool :=
  Rltb eps (m1 - m2) || (Rltb eps tie_threshold && Rltb 0 m1).

(** Modelled from the spec: [n], the observation count of the leaf under
    evaluation (its [stats[0]]; the leaf classes are not among the
    sources). *)
Definition total_weight (leaf : LearningNode (F := R)) : R :=
  match leaf_stats leaf with
  | Some s => stats_0 s
  | None => 0
  end.

(** Modelled from the spec: the bound for a leaf, from the configured
    confidence and the range of the criterion (the criterion class is not
    among the sources). *)
Definition confidence_bound (self : iSOUPTreeRegressor (F := R))
    (leaf : LearningNode (F := R)) : R :=
  hoeffding_bound range_of_merit (split_confidence self) (total_weight leaf).

(** Modelled from the spec: whether the absent split evaluation commits
    to the best candidate.  With the implicit candidate alone there is no
    second merit and nothing to commit to. *)
Definition split_committed (self : iSOUPTreeRegressor (F := R))
    (leaf : LearningNode (F := R)) (suggestions : list SplitSuggestion) : bool :=
  match sort_desc (do_not_split :: suggestions) with
  | best :: second :: _ =>
      should_split (merit best) (merit second) (confidence_bound self leaf)
        (tie_threshold self)
  | _ => false
  end.

(** Modelled from the spec: the absent split evaluation makes one child
    leaf per branch, through the factory, from the branch's statistics and
    with the replaced leaf as parent. *)
Fixpoint new_children (self : iSOUPTreeRegressor (F := R))
    (leaf : LearningNode (F := R)) (branches : list (Stats (F := R)))
    (index : Z) (h : gmap nat Model)
    : result (list (Z * Node (F := R)) * gmap nat Model) :=
  match branches with
  | [] => Ok ([], h)
  | stats :: branches =>
      '(child, h) ← _new_learning_node self (Some stats) (Some leaf) true h;
      '(children, h) ← new_children self leaf branches (index + 1)%Z h;
      Ok ((index, Leaf child) :: children, h)
  end.

(** Modelled from the spec: split evaluation of a leaf, a method of
    [HoeffdingTreeRegressor] that is not among the sources.  When the split
    is committed and the winner is a real candidate, the leaf is replaced by
    a split node holding the winning test; otherwise the leaf stays. *)
Definition attempt_to_split (self : iSOUPTreeRegressor (F := R))
    (leaf : LearningNode (F := R)) (suggestions : list SplitSuggestion)
    (h : gmap nat Model) : result (Node (F := R) * gmap nat Model) :=
  if split_committed self leaf suggestions then
    match sort_desc (do_not_split :: suggestions) with
    | best :: _ =>
        match suggested_test best with
        | Some test =>
            '(children, h) ← new_children self leaf (resulting_stats best) 0%Z h;
            Ok (SplitNode (leaf_stats leaf) (leaf_depth leaf) test children, h)
        | None => Ok (Leaf leaf, h)
        end
    | [] => Ok (Leaf leaf, h)
    end
  else Ok (Leaf leaf, h).


End SplitEvaluation.

(** *** Sample objects *)

Definition a_test : SplitTest (F := R) :=
  {| att_idx := KStr "a"; branch_for_value := λ _, 0%Z |}.

(** A leaf that has seen ten million observations. *)
Definition a_leaf : LearningNode (F := R) :=
  LearningNodeMean true
    (Some {| stats_0 := 10000000; stats_1 := ∅; stats_2 := ∅ |}) 0.

Definition branch_stats : Stats (F := R) :=
  {| stats_0 := 10000000; stats_1 := ∅; stats_2 := ∅ |}.

Definition a_suggestion : SplitSuggestion :=
  {| merit := 1; suggested_test := Some a_test;
     resulting_stats := [branch_stats] |}.

Definition a_tree : iSOUPTreeRegressor (F := R) :=
  (init 200 (1 / 10000000) (5 / 100) "mean").1.

End SplitEvaluation.

(** ** The random under-sampler *)

Module Imblearn.

Section RandomUnderSampler.
Context {F : Type} `{Number F}.
(** Feature maps and class labels; labels are compared with [==]. *)
Context {X Label : Type} `{EqDecision Label}.
(** The generator behind [self._rng]: [random()] returns a number and
    advances the generator. *)
Context {Rng : Type} (rng_random : Rng → F * Rng).

(** The sampler.  The wrapped classifier is represented by the
    [fit_one] calls it has received, oldest first; [_actual_dist] is the
    [Counter], in insertion order. *)
Record RandomUnderSampler : Type := {
  classifier : list (X * Label);
  _rng : Rng;
  desired_dist : list (Label * F);
  _actual_dist : list (Label * nat);
  _pivot : option Label
}.

(** [d[k]] on a plain dict. *)
Fixpoint dict_get {V} (d : list (Label * V)) (k : Label) : result V :=
  match d with
  | [] => Raise KeyError
  | (k', v) :: d => if decide (k' = k) then Ok v else dict_get d k
  end.

(** [c[k]] on a [Counter]: a missing key counts 0. *)
Fixpoint counter_get (c : list (Label * nat)) (k : Label) : nat :=
  match c with
  | [] => 0
  | (k', n) :: c => if decide (k' = k) then n else counter_get c k
  end.

(** [c[k] += 1] on a [Counter]: a new key is added last. *)
Fixpoint counter_incr (c : list (Label * nat)) (k : Label)
    : list (Label * nat) :=
  match c with
  | [] => [(k, 1)]
  | (k', n) :: c =>
      if decide (k' = k) then (k', n + 1) :: c
      else (k', n) :: counter_incr c k
  end.

(** [max(items, key=key)]: the first item whose key no later item
    exceeds; an exception raised by [key] ends it. *)
Fixpoint max_from (key : Label → result F) (maxitem : Label) (maxval : F)
    (items : list Label) : result Label :=
  match items with
  | [] => Ok maxitem
  | item :: items =>
      val ← key item;
      if num_lt maxval val then max_from key item val items
      else max_from key maxitem maxval items
  end.

Definition max_by (key : Label → result F) (items : list Label)
    : result Label :=
  match items with
  | [] => Raise ValueError
  | item :: items => maxval ← key item; max_from key item maxval items
  end.

Definition call_classifier (x : X) (y : Label) (self : RandomUnderSampler) :=
  {| classifier := classifier self ++ [(x, y)];
     _rng := _rng self;
     desired_dist := desired_dist self;
     _actual_dist := _actual_dist self;
     _pivot := _pivot self |}.

Definition with_actual_dist (g : list (Label * nat))
    (self : RandomUnderSampler) :=
  {| classifier := classifier self;
     _rng := _rng self;
     desired_dist := desired_dist self;
     _actual_dist := g;
     _pivot := _pivot self |}.

Definition with_pivot (p : Label) (self : RandomUnderSampler) :=
  {| classifier := classifier self;
     _rng := _rng self;
     desired_dist := desired_dist self;
     _actual_dist := _actual_dist self;
     _pivot := Some p |}.

Definition with_rng (r : Rng) (self : RandomUnderSampler) :=
  {| classifier := classifier self;
     _rng := r;
     desired_dist := desired_dist self;
     _actual_dist := _actual_dist self;
     _pivot := _pivot self |}.

(** [f[y] / g[y]] *)
Definition likelihood_ratio (self : RandomUnderSampler) (y : Label)
    : result F :=
  fy ← dict_get (desired_dist self) y;
  truediv fy (num_of_nat (counter_get (_actual_dist self) y)).

(** [RandomUnderSampler.fit_one(x, y)]: the sampler after the call, and
    the exception when the call raised. *)
Definition fit_one (x : X) (y : Label) (self : RandomUnderSampler)
    : RandomUnderSampler * option exn :=
  let self := with_actual_dist (counter_incr (_actual_dist self) y) self in
  if decide (Some y ≠ _pivot self) then
    match max_by (likelihood_ratio self) (_actual_dist self).*1 with
    | Raise e => (self, Some e)
    | Ok pivot =>
        let self := with_pivot pivot self in
        let ratio :=
          M ← likelihood_ratio self pivot;
          fy ← dict_get (desired_dist self) y;
          truediv fy
            (num_mul M (num_of_nat (counter_get (_actual_dist self) y))) in
        match ratio with
        | Raise e => (self, Some e)
        | Ok ratio =>
            if num_lt ratio (num_of_nat 1) then
              let '(u, rng) := rng_random (_rng self) in
              let self := with_rng rng self in
              if num_lt u ratio then (call_classifier x y self, None)
              else (self, None)
            else (self, None)
        end
    end
  else
    (call_classifier x y self, None).

End RandomUnderSampler.

(** *** Sample objects *)

(** A generator that replays a list of draws. *)
Definition replay (r : list Q) : Q * list Q :=
  match r with
  | [] => (0%Q, [])
  | u :: r => (u, r)
  end.

Definition balanced : list (bool * Q) := [(true, (1 # 2)%Q); (false, (1 # 2)%Q)].

Definition sampler (g : list (bool * nat)) (pivot : option bool)
    (draws : list Q) : RandomUnderSampler (F := Q) (X := nat) (Label := bool) :=
  {| classifier := [];
     _rng := draws;
     desired_dist := balanced;
     _actual_dist := g;
     _pivot := pivot |}.

(** A sampler that has seen class 1 twice and whose desired distribution
    lists no other class. *)
Definition one_class_sampler
    : RandomUnderSampler (F := Q) (X := nat) (Label := nat) (Rng := list Q) :=
  {| classifier := [];
     _rng := [];
     desired_dist := [(1%nat, 1%Q)];
     _actual_dist := [(1%nat, 2%nat)];
     _pivot := Some 1%nat |}.

(** A generator of counts that replays a list of draws, whatever the rate. *)
Definition replay_counts (rate : Q) (r : list nat) : result nat * list nat :=
  match r with
  | [] => (Ok 0%nat, [])
  | count :: r => (Ok count, r)
  end.

(** *** Construction and streams of observations *)

Section Streams.
Context {F : Type} `{Number F}.
Context {X Label : Type} `{EqDecision Label}.
Context {Rng : Type} (rng_random : Rng → F * Rng).

(** [RandomUnderSampler.__init__]: the base constructor, which is not among
    the sources, stores the classifier and makes the generator from the
    seed; both are given here.  The counter starts empty and there is no
    pivot. *)
Definition init (classifier : list (X * Label)) (rng : Rng)
    (desired_dist : list (Label * F))
    : RandomUnderSampler (F := F) (X := X) (Label := Label) (Rng := Rng) :=
  {| classifier := classifier;
     _rng := rng;
     desired_dist := desired_dist;
     _actual_dist := [];
     _pivot := None |}.

(** The class is a key of the desired distribution, with a share that is
    not zero. *)
Definition listed (desired_dist : list (Label * F)) (y : Label) : Prop :=
  ∃ fy, dict_get desired_dist y = Ok fy ∧ num_is_zero fy = false.

(** Every count is positive and every counted class is listed. *)
Definition well_listed
    (self : RandomUnderSampler (F := F) (X := X) (Label := Label) (Rng := Rng))
    : Prop :=
  Forall (λ e, (0 < e.2)%nat) (_actual_dist self)
  ∧ ∀ k, k ∈ (_actual_dist self).*1 → listed (desired_dist self) k.

(** [fit_one] on each observation of a stream in turn; the stream goes on
    after a call that raised. *)
Definition fit_many (observations : list (X * Label))
    (self : RandomUnderSampler (F := F) (X := X) (Label := Label) (Rng := Rng))
    : RandomUnderSampler (F := F) (X := X) (Label := Label) (Rng := Rng) :=
  foldl (λ self o, (fit_one rng_random o.1 o.2 self).1) self observations.

End Streams.

End Imblearn.

(** ** The random over-sampler *)

Module OverSampler.
Import Imblearn.

Section RandomOverSampler.
Context {F : Type} `{Number F}.
Context {X Label : Type} `{EqDecision Label}.
(** The generator behind [self._rng]: [poisson(rate)] returns a count, or
    raises, and advances the generator. *)
Context {Rng : Type} (rng_poisson : F → Rng → result nat * Rng).

(** The over-sampler has the attributes of the under-sampler. *)
Record RandomOverSampler : Type := {
  classifier : list (X * Label);
  _rng : Rng;
  desired_dist : list (Label * F);
  _actual_dist : list (Label * nat);
  _pivot : option Label
}.

(** [RandomOverSampler.__init__], with the classifier and the generator the
    base constructor stores. *)
Definition init (classifier : list (X * Label)) (rng : Rng)
    (desired_dist : list (Label * F)) : RandomOverSampler :=
  {| classifier := classifier;
     _rng := rng;
     desired_dist := desired_dist;
     _actual_dist := [];
     _pivot := None |}.

(** [count] calls of [self.classifier.fit_one(x, y)]. *)
Definition call_classifier (count : nat) (x : X) (y : Label)
    (self : RandomOverSampler) :=
  {| classifier := classifier self ++ replicate count (x, y);
     _rng := _rng self;
     desired_dist := desired_dist self;
     _actual_dist := _actual_dist self;
     _pivot := _pivot self |}.

Definition with_actual_dist (g : list (Label * nat))
    (self : RandomOverSampler) :=
  {| classifier := classifier self;
     _rng := _rng self;
     desired_dist := desired_dist self;
     _actual_dist := g;
     _pivot := _pivot self |}.

Definition with_pivot (p : Label) (self : RandomOverSampler) :=
  {| classifier := classifier self;
     _rng := _rng self;
     desired_dist := desired_dist self;
     _actual_dist := _actual_dist self;
     _pivot := Some p |}.

Definition with_rng (r : Rng) (self : RandomOverSampler) :=
  {| classifier := classifier self;
     _rng := r;
     desired_dist := desired_dist self;
     _actual_dist := _actual_dist self;
     _pivot := _pivot self |}.

(** [g[y] / f[y]] *)
Definition inverse_ratio (self : RandomOverSampler) (y : Label) : result F :=
  fy ← dict_get (desired_dist self) y;
  truediv (num_of_nat (counter_get (_actual_dist self) y)) fy.

(** [RandomOverSampler.fit_one(x, y)]: the sampler after the call, and the
    exception when the call raised. *)
Definition fit_one (x : X) (y : Label) (self : RandomOverSampler)
    : RandomOverSampler * option exn :=
  let self := with_actual_dist (counter_incr (_actual_dist self) y) self in
  if decide (Some y ≠ _pivot self) then
    match max_by (inverse_ratio self) (_actual_dist self).*1 with
    | Raise e => (self, Some e)
    | Ok pivot =>
        let self := with_pivot pivot self in
        let rate :=
          M ← inverse_ratio self pivot;
          fy ← dict_get (desired_dist self) y;
          truediv (num_mul M fy)
            (num_of_nat (counter_get (_actual_dist self) y)) in
        match rate with
        | Raise e => (self, Some e)
        | Ok rate =>
            let '(count, rng) := rng_poisson rate (_rng self) in
            let self := with_rng rng self in
            match count with
            | Raise e => (self, Some e)
            | Ok count => (call_classifier count x y self, None)
            end
        end
    end
  else
    (call_classifier 1 x y self, None).

Definition fit_many (observations : list (X * Label))
    (self : RandomOverSampler) : RandomOverSampler :=
  foldl (λ self o, (fit_one o.1 o.2 self).1) self observations.

End RandomOverSampler.

(** *** Sample objects *)

Definition over_sampler (g : list (bool * nat)) (pivot : option bool)
    (draws : list nat) : RandomOverSampler (F := Q) (X := nat) (Label := bool) :=
  {| classifier := [];
     _rng := draws;
     desired_dist := balanced;
     _actual_dist := g;
     _pivot := pivot |}.

End OverSampler.

(** ** The random sampler *)

Module Sampler.
Import Imblearn.

Section RandomSampler.
Context {F : Type} `{Number F}.
Context {X Label : Type} `{EqDecision Label}.
Context {Rng : Type} (rng_poisson : F → Rng → result nat * Rng).

Record RandomSampler : Type := {
  classifier : list (X * Label);
  _rng : Rng;
  desired_dist : list (Label * F);
  sampling_rate : F;
  _actual_dist : list (Label * nat);
  _n : nat
}.

(** [RandomSampler.__init__], with the classifier and the generator the
    base constructor stores. *)
Definition init (classifier : list (X * Label)) (rng : Rng)
    (desired_dist : list (Label * F)) (sampling_rate : F) : RandomSampler :=
  {| classifier := classifier;
     _rng := rng;
     desired_dist := desired_dist;
     sampling_rate := sampling_rate;
     _actual_dist := [];
     _n := 0 |}.

Definition call_classifier (count : nat) (x : X) (y : Label)
    (self : RandomSampler) :=
  {| classifier := classifier self ++ replicate count (x, y);
     _rng := _rng self;
     desired_dist := desired_dist self;
     sampling_rate := sampling_rate self;
     _actual_dist := _actual_dist self;
     _n := _n self |}.

(** [self._actual_dist[y] += 1; self._n += 1] *)
Definition count_observation (y : Label) (self : RandomSampler) :=
  {| classifier := classifier self;
     _rng := _rng self;
     desired_dist := desired_dist self;
     sampling_rate := sampling_rate self;
     _actual_dist := counter_incr (_actual_dist self) y;
     _n := _n self + 1 |}.

Definition with_rng (r : Rng) (self : RandomSampler) :=
  {| classifier := classifier self;
     _rng := r;
     desired_dist := desired_dist self;
     sampling_rate := sampling_rate self;
     _actual_dist := _actual_dist self;
     _n := _n self |}.

(** [RandomSampler.fit_one(x, y)]: the sampler after the call, and the
    exception when the call raised. *)
Definition fit_one (x : X) (y : Label) (self : RandomSampler)
    : RandomSampler * option exn :=
  let self := count_observation y self in
  let rate :=
    fy ← dict_get (desired_dist self) y;
    share ← truediv (num_of_nat (counter_get (_actual_dist self) y))
               (num_of_nat (_n self));
    truediv (num_mul (sampling_rate self) fy) share in
  match rate with
  | Raise e => (self, Some e)
  | Ok rate =>
      let '(count, rng) := rng_poisson rate (_rng self) in
      let self := with_rng rng self in
      match count with
      | Raise e => (self, Some e)
      | Ok count => (call_classifier count x y self, None)
      end
  end.

Definition fit_many (observations : list (X * Label))
    (self : RandomSampler) : RandomSampler :=
  foldl (λ self o, (fit_one o.1 o.2 self).1) self observations.

End RandomSampler.

(** *** Sample objects *)

Definition mixed_sampler (g : list (bool * nat)) (n : nat) (draws : list nat)
    : RandomSampler (F := Q) (X := nat) (Label := bool) :=
  {| classifier := [];
     _rng := draws;
     desired_dist := balanced;
     sampling_rate := 1%Q;
     _actual_dist := g;
     _n := n |}.

End Sampler.

(** * Properties *)

(** ** The iSOUP-Tree regressor *)

Module ISoupProps.
Import ISoup.

Section Tree.
Context {F : Type} `{Number F}.
Context {Model : Type}.

Local Abbreviation Stats := (Stats (F := F)).
Local Abbreviation LearningNode := (LearningNode (F := F)).
Local Abbreviation Node := (Node (F := F)).
Local Abbreviation SplitTest := (SplitTest (F := F)).
Local Abbreviation HoeffdingTreeRegressor := (HoeffdingTreeRegressor (F := F)).
Local Abbreviation iSOUPTreeRegressor := (iSOUPTreeRegressor (F := F)).
Local Abbreviation Store := (gmap nat Model).

(** *** Properties of the configuration setters *)

Lemma set_leaf_prediction_valid (v : string) (self : iSOUPTreeRegressor) :
  v ∈ [_TARGET_MEAN; _MODEL; _ADAPTIVE] →
  set_leaf_prediction v self = (with_leaf_prediction v self, []).
Proof.
  intros Hv. unfold set_leaf_prediction.
  rewrite bool_decide_eq_false_2; [reflexivity | tauto].
Qed.

Lemma set_leaf_prediction_invalid (v : string) (self : iSOUPTreeRegressor) :
  v ∉ [_TARGET_MEAN; _MODEL; _ADAPTIVE] →
  set_leaf_prediction v self =
    (with_leaf_prediction _MODEL self,
     [invalid_option "leaf_prediction" v _MODEL]).
Proof.
  intros Hv. unfold set_leaf_prediction.
  by rewrite bool_decide_eq_true_2.
Qed.

Lemma set_split_criterion_icvr (self : iSOUPTreeRegressor) :
  set_split_criterion "icvr" self = (with_split_criterion "icvr" self, []).
Proof. reflexivity. Qed.

Lemma set_split_criterion_vr (self : iSOUPTreeRegressor) :
  set_split_criterion "vr" self = (with_split_criterion "icvr" self, []).
Proof. reflexivity. Qed.

Lemma set_split_criterion_invalid (v : string) (self : iSOUPTreeRegressor) :
  v ≠ "icvr" → v ≠ "vr" →
  set_split_criterion v self =
    (with_split_criterion "icvr" self,
     [invalid_option "split_criterion" v "icvr"]).
Proof.
  intros Hi Hv. unfold set_split_criterion.
  rewrite (bool_decide_eq_false_2 (v = "vr")) by done.
  by rewrite bool_decide_eq_true_2.
Qed.

(** C6, as the code has it.  A [leaf_prediction] outside mean, model and
    adaptive is replaced by the default ["model"] and one diagnostic line
    is printed; a [split_criterion] other than ["icvr"] and ["vr"] is
    replaced by ["icvr"] and one diagnostic line is printed, while ["vr"]
    is replaced by ["icvr"] and nothing is printed.  Both setters are
    total: no value makes them raise. *)
Theorem configuration_falls_back (v : string) (self : iSOUPTreeRegressor) :
  (v ∉ [_TARGET_MEAN; _MODEL; _ADAPTIVE] →
   set_leaf_prediction v self =
     (with_leaf_prediction _MODEL self,
      [invalid_option "leaf_prediction" v _MODEL]))
  ∧ (v ≠ "icvr" → v ≠ "vr" →
     set_split_criterion v self =
       (with_split_criterion "icvr" self,
        [invalid_option "split_criterion" v "icvr"]))
  ∧ set_split_criterion "vr" self = (with_split_criterion "icvr" self, []).
Proof.
  split; [| split].
  - apply set_leaf_prediction_invalid.
  - apply set_split_criterion_invalid.
  - apply set_split_criterion_vr.
Qed.

(** C9.  Assigning ['vr'] stores ['icvr'] and prints nothing; every
    other value that is not ['icvr'] stores ['icvr'] after printing the
    diagnostic that names it. *)
Theorem split_criterion_vr_is_silent (self : iSOUPTreeRegressor) :
  set_split_criterion "vr" self = (with_split_criterion "icvr" self, [])
  ∧ ∀ v, v ≠ "icvr" → v ≠ "vr" →
      (set_split_criterion v self).1 = with_split_criterion "icvr" self
      ∧ (set_split_criterion v self).2 =
          [invalid_option "split_criterion" v "icvr"].
Proof.
  split; [apply set_split_criterion_vr |].
  intros v Hi Hv. by rewrite set_split_criterion_invalid.
Qed.

(** *** Properties of the node factory *)

(** What [deepcopy_entries] guarantees, relative to the store [h0] the
    copy started from: the store only grows, the keys are kept in order,
    every copy is at a location [h0] does not use, and every copy holds
    what [h0] holds for its original. *)
Lemma deepcopy_entries_spec (h0 : Store) (m : ModelMap) :
  ∀ (memo : gmap loc loc) (h : Store) (r : ModelMap) (h' : Store),
    h0 ⊆ h →
    (∀ l l', memo !! l = Some l' →
             (l' ∉ dom h0) ∧ is_Some (h !! l') ∧ h !! l' = h0 !! l) →
    Forall (λ e, is_Some (h0 !! e.2)) m →
    deepcopy_entries memo h m = (r, h') →
    h ⊆ h'
    ∧ r.*1 = m.*1
    ∧ Forall (λ e, e.2 ∉ dom h0) r
    ∧ Forall2 (λ e e', h' !! e'.2 = h0 !! e.2) m r.
Proof.
  induction m as [|[k l] m IH]; intros memo h r h' Hsub Hmemo Hwf Hrun.
  - simpl in Hrun. injection Hrun as <- <-.
    repeat split; [reflexivity | constructor | constructor].
  - apply Forall_cons in Hwf as [[obj0 Hobj0] Hwf]. simpl in Hobj0.
    assert (h !! l = Some obj0) as Hl by (eapply lookup_weaken; eauto).
    simpl in Hrun. destruct (memo !! l) as [l'|] eqn:Hm.
    + destruct (deepcopy_entries memo h m) as [r0 h1] eqn:Hrec.
      injection Hrun as <- <-.
      destruct (IH _ _ _ _ Hsub Hmemo Hwf Hrec) as (Hh & Hk & Hfresh & Hcopy).
      destruct (Hmemo _ _ Hm) as (Hnew & [obj Hobj] & Hsame).
      repeat split; [done | simpl; by f_equal | by constructor |].
      constructor; [| done]. simpl.
      rewrite <- Hsame, Hobj. eapply lookup_weaken; eauto.
    + rewrite Hl in Hrun.
      set (l' := fresh (dom h)) in *.
      assert (l' ∉ dom h) as Hl' by apply is_fresh.
      assert (h !! l' = None) as Hnone by (by apply not_elem_of_dom).
      destruct (deepcopy_entries (<[l:=l']> memo) (<[l':=obj0]> h) m)
        as [r0 h1] eqn:Hrec.
      injection Hrun as <- <-.
      assert (h ⊆ <[l':=obj0]> h) as Hgrow by (by apply insert_subseteq).
      assert (l' ∉ dom h0) as Hl0.
      { intros Hin. apply Hl'. apply elem_of_dom.
        apply elem_of_dom in Hin as [o Ho]. exists o.
        eapply lookup_weaken; eauto. }
      destruct (IH (<[l:=l']> memo) (<[l':=obj0]> h) r0 h1) as
        (Hh & Hk & Hfresh & Hcopy); [by etrans | | done | done |].
      { intros l1 l1' Hl1. destruct (decide (l = l1)) as [<-|Hne].
        - rewrite lookup_insert_eq in Hl1. injection Hl1 as <-.
          rewrite lookup_insert_eq. by eauto.
        - rewrite lookup_insert_ne in Hl1 by done.
          destruct (Hmemo _ _ Hl1) as (Hnew & [o Ho] & Hsame).
          assert (l' ≠ l1') as Hne' by congruence.
          rewrite lookup_insert_ne by done. by eauto. }
      repeat split; [by etrans | simpl; by f_equal | by constructor |].
      constructor; [| done]. simpl. rewrite Hobj0.
      eapply lookup_weaken; [apply lookup_insert_eq | done].
Qed.

Lemma deepcopy_spec (h : Store) (m r : ModelMap) (h' : Store) :
  Forall (λ e, is_Some (h !! e.2)) m →
  deepcopy h m = (r, h') →
  h ⊆ h'
  ∧ r.*1 = m.*1
  ∧ Forall (λ e, e.2 ∉ dom h) r
  ∧ Forall2 (λ e e', h' !! e'.2 = h !! e.2) m r.
Proof.
  intros Hwf Hrun.
  apply (deepcopy_entries_spec h m ∅ h r h'); [done | | done | done].
  intros l l' Hl. by rewrite lookup_empty in Hl.
Qed.

(** Decide the tests on the configured mode once it is known. *)
Ltac eval_tests :=
  repeat match goal with
         | |- context [bool_decide ?P] =>
             let b := eval vm_compute in (bool_decide P) in
             change (bool_decide P) with b
         end;
  cbn.

(** The mode is one of the two that keep models. *)
Lemma keeps_models_cases (self : iSOUPTreeRegressor) :
  _leaf_prediction self ∈ [_MODEL; _ADAPTIVE] →
  _leaf_prediction self = _MODEL ∨ _leaf_prediction self = _ADAPTIVE.
Proof.
  intros Hin. apply elem_of_cons in Hin as [?|Hin]; [by left |].
  apply list_elem_of_singleton in Hin. by right.
Qed.

Lemma new_learning_node_root (self : iSOUPTreeRegressor)
    (stats : option Stats) (active : bool) (h : Store) :
  _leaf_prediction self ∈ [_MODEL; _ADAPTIVE] →
  ∃ n, _new_learning_node self stats None active h = Ok (n, h)
       ∧ _leaf_models n = Ok [].
Proof.
  intros Hmode. unfold _new_learning_node.
  destruct (keeps_models_cases self Hmode) as [-> | ->];
    destruct active; eval_tests; eauto.
Qed.

Lemma new_learning_node_child (self : iSOUPTreeRegressor)
    (stats : option Stats) (p : LearningNode) (active : bool) (h : Store)
    (m : ModelMap) :
  _leaf_prediction self ∈ [_MODEL; _ADAPTIVE] →
  _leaf_models p = Ok m →
  (_leaf_prediction self = _ADAPTIVE → returns (_fmse_mean p)) →
  ∃ n, _new_learning_node self stats (Some p) active h
       = Ok (n, (deepcopy h m).2)
       ∧ _leaf_models n = Ok (deepcopy h m).1.
Proof.
  intros Hmode Hm Hfm. unfold _new_learning_node. rewrite Hm.
  destruct (deepcopy h m) as [m' h'] eqn:Hcopy.
  destruct (keeps_models_cases self Hmode) as [Hmd | Hmd].
  - rewrite Hmd. destruct active; eval_tests; rewrite Hcopy; cbn; eauto.
  - destruct (Hfm Hmd) as [fm Hfme]. rewrite Hmd.
    destruct p; try discriminate Hfme.
    destruct active; eval_tests; rewrite Hcopy; cbn; eauto.
Qed.

(** A location the store does not use is referenced by no model map whose
    references are all in the store. *)
Lemma fresh_not_referenced (h : Store) (m' other : ModelMap) :
  Forall (λ e, e.2 ∉ dom h) m' →
  Forall (λ e, is_Some (h !! e.2)) other →
  Forall (λ e, e.2 ∉ other.*2) m'.
Proof.
  intros Hfresh Hother. eapply Forall_impl; [exact Hfresh |].
  intros e He Hin. apply list_elem_of_fmap in Hin as (e0 & Heq & Hin).
  rewrite Forall_forall in Hother. apply Hother in Hin.
  apply He, elem_of_dom. by rewrite Heq.
Qed.

(** C8.  In the model and adaptive modes a leaf made without a parent
    starts with an empty model map, in an unchanged store; a leaf made
    from a parent starts with a copy of the parent's map under the same
    keys, in which every model is a new object: it is at a location unused
    before the call, so that the model map of no node existing before the
    call, the parent included, references it; it holds what the parent's
    model holds; and the objects already in the store are left as they
    were. *)
Theorem new_learning_node_clones_models (self : iSOUPTreeRegressor)
    (stats : option Stats) (active : bool) (h : Store) :
  _leaf_prediction self ∈ [_MODEL; _ADAPTIVE] →
  (∃ n, _new_learning_node self stats None active h = Ok (n, h)
        ∧ _leaf_models n = Ok [])
  ∧ (∀ p m,
       _leaf_models p = Ok m →
       Forall (λ e, is_Some (h !! e.2)) m →
       (_leaf_prediction self = _ADAPTIVE → returns (_fmse_mean p)) →
       ∃ n h' m',
         _new_learning_node self stats (Some p) active h = Ok (n, h')
         ∧ _leaf_models n = Ok m'
         ∧ h ⊆ h'
         ∧ m'.*1 = m.*1
         ∧ Forall (λ e, e.2 ∉ dom h) m'
         ∧ Forall2 (λ e e', h' !! e'.2 = h !! e.2) m m'
         ∧ (∀ other : ModelMap,
              Forall (λ e, is_Some (h !! e.2)) other →
              Forall (λ e, e.2 ∉ other.*2) m')).
Proof.
  intros Hmode. split; [by apply new_learning_node_root |].
  intros p m Hm Hwf Hfm.
  destruct (new_learning_node_child self stats p active h m Hmode Hm Hfm)
    as (n & Hn & Hmodels).
  destruct (deepcopy_spec h m (deepcopy h m).1 (deepcopy h m).2 Hwf)
    as (Hgrow & Hkeys & Hfresh & Hcopy); [by destruct (deepcopy h m) |].
  exists n, (deepcopy h m).2, (deepcopy h m).1.
  repeat split; try done.
  intros other Hother. by apply (fresh_not_referenced h).
Qed.

(** The fading errors of a new adaptive leaf, by the branch taken. *)
Lemma new_active_adaptive_fmse (self : iSOUPTreeRegressor)
    (stats pstats : option Stats) (a : bool) (d : nat) (m : ModelMap)
    (fme fmo : gmap key F) (h : Store) :
  _leaf_prediction self = _ADAPTIVE →
  ∃ n h',
    _new_learning_node self stats
      (Some (LearningNodeAdaptiveMultiTarget a pstats d m fme fmo)) true h
    = Ok (n, h')
    ∧ _fmse_mean n = Ok fme ∧ _fmse_model n = Ok fmo.
Proof.
  intros Hmd. unfold _new_learning_node. rewrite Hmd. eval_tests.
  destruct (deepcopy h m) as [m' h']. cbn. eauto.
Qed.

Lemma new_inactive_adaptive_fmse (self : iSOUPTreeRegressor)
    (stats pstats : option Stats) (a : bool) (d : nat) (m : ModelMap)
    (fme fmo : gmap key F) (h : Store) :
  _leaf_prediction self = _ADAPTIVE →
  ∃ n h',
    _new_learning_node self stats
      (Some (LearningNodeAdaptiveMultiTarget a pstats d m fme fmo)) false h
    = Ok (n, h')
    ∧ _fmse_mean n = Ok fmo ∧ _fmse_model n = Ok ∅.
Proof.
  intros Hmd. unfold _new_learning_node. rewrite Hmd. eval_tests.
  destruct (deepcopy h m) as [m' h']. cbn. eauto.
Qed.

(** *** Properties of [learn_one] *)

Section LearnOne.
Variable super_learn_one :
  gset key → gmap key F → gmap key F → F →
  HoeffdingTreeRegressor → Store →
  HoeffdingTreeRegressor * Store * option exn.

Lemma learn_one_targets x y w (self : iSOUPTreeRegressor) (h : Store) :
  _targets (learn_one super_learn_one x y w self h).1.1
  = _targets self ∪ dom y.
Proof.
  unfold learn_one.
  by destruct (super_learn_one _ x y w (super self) h) as [[base h'] e].
Qed.

Lemma learn_one_inherited x y w (self : iSOUPTreeRegressor) (h : Store) :
  let r := learn_one super_learn_one x y w self h in
  (super r.1.1, r.1.2, r.2)
  = super_learn_one (_targets self ∪ dom y) x y w (super self) h.
Proof.
  unfold learn_one.
  by destruct (super_learn_one _ x y w (super self) h) as [[base h'] e].
Qed.

Lemma learn_many_app calls1 calls2 (self : iSOUPTreeRegressor) (h : Store) :
  learn_many super_learn_one (calls1 ++ calls2) self h
  = learn_many super_learn_one calls2
      (learn_many super_learn_one calls1 self h).1
      (learn_many super_learn_one calls1 self h).2.
Proof.
  unfold learn_many. rewrite foldl_app.
  by destruct (foldl _ (self, h) calls1).
Qed.

Lemma learn_many_targets_grow calls (self : iSOUPTreeRegressor) (h : Store) :
  _targets self ⊆ _targets (learn_many super_learn_one calls self h).1.
Proof.
  revert self h. induction calls as [|[[x y] w] calls IH]; intros self h.
  - reflexivity.
  - change (learn_many super_learn_one (((x, y), w) :: calls) self h)
      with (learn_many super_learn_one ([((x, y), w)] ++ calls) self h).
    rewrite learn_many_app. etrans; [| apply IH].
    cbn. rewrite learn_one_targets. apply union_subseteq_l.
Qed.

(** C5.  Each [learn_one] call replaces the tracked target keys by
    their union with the keys of [y], whatever the weight and whether or
    not the inherited call raises; hence the keys tracked after a
    sequence of calls contain those tracked after any prefix of it, and
    no key is ever removed. *)
Theorem targets_append_only :
  (∀ x y w (self : iSOUPTreeRegressor) (h : Store),
      _targets (learn_one super_learn_one x y w self h).1.1
      = _targets self ∪ dom y)
  ∧ (∀ earlier later (self : iSOUPTreeRegressor) (h : Store),
      _targets (learn_many super_learn_one earlier self h).1
      ⊆ _targets (learn_many super_learn_one (earlier ++ later) self h).1)
  ∧ (∀ k calls (self : iSOUPTreeRegressor) (h : Store),
      k ∈ _targets self →
      k ∈ _targets (learn_many super_learn_one calls self h).1).
Proof.
  split; [| split].
  - apply learn_one_targets.
  - intros earlier later self h. rewrite learn_many_app.
    apply learn_many_targets_grow.
  - intros k calls self h Hk.
    by apply (learn_many_targets_grow calls self h).
Qed.

(** C4, as the code has it.  A call with weight zero is not gated: it
    merges the keys of [y] into the tracked target keys like any other
    call, so that set stays the same exactly when [y] brings no new key;
    and the inherited [learn_one] is still run, with weight zero, and
    decides what becomes of the root, the nodes and the models. *)
Theorem learn_one_zero_weight x y (self : iSOUPTreeRegressor) (h : Store) :
  _targets (learn_one super_learn_one x y (num_of_nat 0) self h).1.1
  = _targets self ∪ dom y
  ∧ (_targets (learn_one super_learn_one x y (num_of_nat 0) self h).1.1
     = _targets self ↔ dom y ⊆ _targets self)
  ∧ (super (learn_one super_learn_one x y (num_of_nat 0) self h).1.1,
     (learn_one super_learn_one x y (num_of_nat 0) self h).1.2,
     (learn_one super_learn_one x y (num_of_nat 0) self h).2)
    = super_learn_one (_targets self ∪ dom y) x y (num_of_nat 0)
        (super self) h.
Proof.
  split; [apply learn_one_targets | split].
  - rewrite learn_one_targets. split.
    + intros Heq. rewrite <- Heq. apply union_subseteq_r.
    + intros Hsub. rewrite (comm_L (∪)). by apply subseteq_union_1_L.
  - apply learn_one_inherited.
Qed.

End LearnOne.

(** *** Properties of [predict_one] *)

Section PredictOne.
Variable leaf_predict_one :
  LearningNode → gmap key F → iSOUPTreeRegressor → Store →
  result (gmap key F).


(** A split node whose test finds its feature missing ends the
    traversal. *)
Lemma filter_missing_feature (x : gmap key F) (stats : option Stats)
    (depth : nat) (t : SplitTest) (children : list (Z * Node))
    (parent : option Node) (branch : Z) :
  x !! att_idx t = None →
  filter_instance_to_leaf x (SplitNode stats depth t children) parent branch
  = {| found_node := Some (SplitNode stats depth t children);
       found_parent := parent; found_parent_branch := branch |}.
Proof.
  intros Hx. simpl. unfold branch_for_instance. by rewrite Hx.
Qed.





(** C7.  On a tree that has no root, [predict_one] returns [None]
    for every [x]: it does not raise and gives no target map. *)
Theorem predict_one_before_training (self : iSOUPTreeRegressor)
    (h : Store) (x : gmap key F) :
  _tree_root self = None →
  predict_one leaf_predict_one self h x = Ok None.
Proof. intros Hroot. unfold predict_one. by rewrite Hroot. Qed.

End PredictOne.

(** *** Further properties of the configuration setters *)

(** X1.  Whatever value is assigned to [split_criterion], the criterion
    stored is ['icvr']; a line is printed exactly when the value is neither
    ['icvr'] nor ['vr']; and no other attribute changes. *)
Theorem split_criterion_always_icvr (v : string) (self : iSOUPTreeRegressor) :
  _split_criterion (set_split_criterion v self).1 = "icvr"
  ∧ ((set_split_criterion v self).2 = [] ↔ v = "icvr" ∨ v = "vr")
  ∧ _leaf_prediction (set_split_criterion v self).1 = _leaf_prediction self
  ∧ _tree_root (set_split_criterion v self).1 = _tree_root self
  ∧ _targets (set_split_criterion v self).1 = _targets self.
Proof.
  destruct (decide (v = "vr")) as [-> | Hvr];
    [| destruct (decide (v = "icvr")) as [-> | Hicvr]].
  - rewrite set_split_criterion_vr. repeat split; auto.
  - rewrite set_split_criterion_icvr. repeat split; auto.
  - rewrite set_split_criterion_invalid by done.
    repeat split; try done. intros [? | ?]; done.
Qed.

(** X2.  Whatever value is assigned to [leaf_prediction], the mode stored
    is one of mean, model and adaptive; a line is printed exactly when the
    value is none of them; and assigning the stored mode again prints
    nothing and changes nothing. *)
Theorem leaf_prediction_always_valid (v : string) (self : iSOUPTreeRegressor) :
  _leaf_prediction (set_leaf_prediction v self).1
    ∈ [_TARGET_MEAN; _MODEL; _ADAPTIVE]
  ∧ ((set_leaf_prediction v self).2 = []
     ↔ v ∈ [_TARGET_MEAN; _MODEL; _ADAPTIVE])
  ∧ set_leaf_prediction (_leaf_prediction (set_leaf_prediction v self).1)
      (set_leaf_prediction v self).1
    = ((set_leaf_prediction v self).1, []).
Proof.
  destruct (decide (v ∈ [_TARGET_MEAN; _MODEL; _ADAPTIVE])) as [Hin | Hout].
  - rewrite (set_leaf_prediction_valid v self Hin). cbn.
    split; [done | split; [done |]].
    by rewrite (set_leaf_prediction_valid v _ Hin).
  - rewrite (set_leaf_prediction_invalid v self Hout). cbn.
    assert (_MODEL ∈ [_TARGET_MEAN; _MODEL; _ADAPTIVE]) as Hmodel
      by (apply list_elem_of_further, list_elem_of_here).
    split; [done | split; [split; [discriminate | done] |]].
    by rewrite (set_leaf_prediction_valid _MODEL _ Hmodel).
Qed.

(** *** Further properties of the node factory *)

Lemma mode_cases (mode : string) :
  mode ∈ [_TARGET_MEAN; _MODEL; _ADAPTIVE] →
  mode = _TARGET_MEAN ∨ mode = _MODEL ∨ mode = _ADAPTIVE.
Proof.
  intros Hin. apply elem_of_cons in Hin as [? | Hin]; [by left |].
  apply elem_of_cons in Hin as [? | Hin]; [by right; left |].
  apply list_elem_of_singleton in Hin. by right; right.
Qed.

(** With a mode that is none of the three, [leaf_models] is read before any
    assignment has bound it. *)
Lemma new_learning_node_invalid_mode (self : iSOUPTreeRegressor)
    (stats : option Stats) (parent : option LearningNode) (active : bool)
    (h : Store) :
  _leaf_prediction self ∉ [_TARGET_MEAN; _MODEL; _ADAPTIVE] →
  _new_learning_node self stats parent active h = Raise UnboundLocalError.
Proof.
  intros Hout. unfold _new_learning_node.
  rewrite (bool_decide_eq_false_2 (_leaf_prediction self ∈ [_MODEL; _ADAPTIVE])).
  2: { intros Hin. apply Hout. by apply list_elem_of_further. }
  rewrite (bool_decide_eq_false_2 (_leaf_prediction self = _TARGET_MEAN)).
  2: { intros Heq. apply Hout. rewrite Heq. apply list_elem_of_here. }
  rewrite (bool_decide_eq_false_2 (_leaf_prediction self = _MODEL)).
  2: { intros Heq. apply Hout. rewrite Heq.
       apply list_elem_of_further, list_elem_of_here. }
  by destruct active.
Qed.

(** What a successful call has done, by mode.  [d] is the depth the source
    computes; without a parent the model map is empty and the store is left
    alone, with a parent the map and the store are those of the deep copy. *)
Lemma new_learning_node_inv (self : iSOUPTreeRegressor)
    (stats : option Stats) (parent : option LearningNode) (active : bool)
    (h : Store) (n : LearningNode) (h' : Store) :
  _new_learning_node self stats parent active h = Ok (n, h') →
  let d := match parent with Some p => (leaf_depth p + 1)%nat | None => 0%nat end in
  let copied (m' : ModelMap) :=
    match parent with
    | None => m' = [] ∧ h' = h
    | Some p => ∃ m, _leaf_models p = Ok m ∧ deepcopy h m = (m', h')
    end in
  (_leaf_prediction self = _TARGET_MEAN
   ∧ n = LearningNodeMean active stats d ∧ h' = h)
  ∨ (_leaf_prediction self = _MODEL
     ∧ ∃ m', n = LearningNodeModelMultiTarget active stats d m' ∧ copied m')
  ∨ (_leaf_prediction self = _ADAPTIVE
     ∧ ∃ m' fme fmo,
         n = LearningNodeAdaptiveMultiTarget active stats d m' fme fmo
         ∧ copied m').
Proof.
  intros Hrun d copied. subst d copied.
  destruct (decide (_leaf_prediction self ∈ [_TARGET_MEAN; _MODEL; _ADAPTIVE]))
    as [Hin | Hout].
  2: { by rewrite new_learning_node_invalid_mode in Hrun. }
  unfold _new_learning_node in Hrun.
  destruct (mode_cases _ Hin) as [Hmd | [Hmd | Hmd]]; rewrite Hmd in *;
    revert Hrun; eval_tests; intros Hrun.
  - left. destruct active; injection Hrun as <- <-; done.
  - right; left. split; [done |].
    destruct parent as [p |].
    + destruct (_leaf_models p) as [m | e] eqn:Hm; [| done]. cbn in Hrun.
      destruct (deepcopy h m) as [m' h1] eqn:Hcopy. cbn in Hrun.
      destruct active; injection Hrun as <- <-; eauto.
    + destruct active; injection Hrun as <- <-; eauto.
  - right; right. split; [done |].
    destruct parent as [p |].
    + destruct (_leaf_models p) as [m | e] eqn:Hm; [| done]. cbn in Hrun.
      destruct (deepcopy h m) as [m' h1] eqn:Hcopy. cbn in Hrun.
      destruct (_fmse_mean p) as [fme | e]; [| by destruct active].
      destruct (_fmse_model p) as [fmo | e]; [| by destruct active].
      destruct active; injection Hrun as <- <-; cbn; eauto 10.
    + destruct active; injection Hrun as <- <-; cbn; eauto 10.
Qed.

(** X3.  With one of the three modes configured the factory never reads
    [leaf_models] unbound, and without a parent it always returns a leaf;
    with any other mode stored, every call raises [UnboundLocalError]. *)
Theorem new_learning_node_unbound_local (self : iSOUPTreeRegressor)
    (stats : option Stats) (parent : option LearningNode) (active : bool)
    (h : Store) :
  (_leaf_prediction self ∈ [_TARGET_MEAN; _MODEL; _ADAPTIVE] →
   _new_learning_node self stats parent active h ≠ Raise UnboundLocalError
   ∧ returns (_new_learning_node self stats None active h))
  ∧ (_leaf_prediction self ∉ [_TARGET_MEAN; _MODEL; _ADAPTIVE] →
     _new_learning_node self stats parent active h = Raise UnboundLocalError).
Proof.
  split; [| apply new_learning_node_invalid_mode].
  intros Hin. unfold _new_learning_node.
  destruct (mode_cases _ Hin) as [Hmd | [Hmd | Hmd]]; rewrite Hmd; eval_tests.
  - split; [by destruct active | destruct active; by eexists].
  - split; [| destruct active; by eexists].
    destruct parent as [p |]; [| by destruct active].
    destruct (_leaf_models p) as [m | e] eqn:Hm.
    + cbn. destruct (deepcopy h m). by destruct active.
    + destruct p; try discriminate Hm. by injection Hm as <-.
  - split; [| destruct active; by eexists].
    destruct parent as [p |]; [| by destruct active].
    destruct p as [a s d | a s d m | a s d m fme fmo]; cbn.
    + done.
    + destruct (deepcopy h m). by destruct active.
    + destruct (deepcopy h m). by destruct active.
Qed.

(** X4.  A leaf the factory returns is of the class of the configured
    mode and of the requested activity, holds the initial statistics it was
    given, and is one level below its parent (at depth 0 without one); in
    mean mode, and without a parent, the store is left as it was. *)
Theorem new_learning_node_shape (self : iSOUPTreeRegressor)
    (stats : option Stats) (parent : option LearningNode) (active : bool)
    (h : Store) (n : LearningNode) (h' : Store) :
  _new_learning_node self stats parent active h = Ok (n, h') →
  leaf_kind n = _leaf_prediction self
  ∧ is_active n = active
  ∧ leaf_stats n = stats
  ∧ leaf_depth n
    = match parent with Some p => (leaf_depth p + 1)%nat | None => 0%nat end
  ∧ (_leaf_prediction self = _TARGET_MEAN → h' = h)
  ∧ (parent = None → h' = h).
Proof.
  intros Hrun.
  destruct (new_learning_node_inv _ _ _ _ _ _ _ Hrun)
    as [(Hmd & -> & ->) | [(Hmd & m' & -> & Hcopy)
                          | (Hmd & m' & fme & fmo & -> & Hcopy)]];
    rewrite Hmd; cbn; repeat split; try done.
  - intros ->. by destruct Hcopy.
  - intros ->. by destruct Hcopy.
Qed.

Lemma new_learning_node_copy (self : iSOUPTreeRegressor)
    (stats : option Stats) (p : LearningNode) (active : bool)
    (h : Store) (n : LearningNode) (h' : Store) (m m' : ModelMap) :
  _new_learning_node self stats (Some p) active h = Ok (n, h') →
  _leaf_models p = Ok m →
  _leaf_models n = Ok m' →
  deepcopy h m = (m', h').
Proof.
  intros Hrun Hm Hm'.
  destruct (new_learning_node_inv _ _ _ _ _ _ _ Hrun)
    as [(Hmd & -> & ->) | [(Hmd & m1 & -> & m0 & Hm0 & Hcopy)
                          | (Hmd & m1 & fme & fmo & -> & m0 & Hm0 & Hcopy)]];
    [done | |]; cbn in Hm'; congruence.
Qed.

(** Copies stay what they are when the store grows. *)
Lemma copy_contents_weaken (h h1 h2 : Store) (m m' : ModelMap) :
  Forall (λ e, is_Some (h !! e.2)) m →
  Forall2 (λ e e', h1 !! e'.2 = h !! e.2) m m' →
  h1 ⊆ h2 →
  Forall2 (λ e e', h2 !! e'.2 = h !! e.2) m m'.
Proof.
  intros Hwf Hcopy Hsub. induction Hcopy as [| e e' m m' He Hcopy IH].
  - constructor.
  - apply Forall_cons in Hwf as [[obj Hobj] Hwf].
    constructor; [| by apply IH].
    rewrite Hobj in He |- *. by eapply lookup_weaken.
Qed.

Lemma copies_allocated (h h1 : Store) (m m' : ModelMap) :
  Forall (λ e, is_Some (h !! e.2)) m →
  Forall2 (λ e e', h1 !! e'.2 = h !! e.2) m m' →
  Forall (λ e, is_Some (h1 !! e.2)) m'.
Proof.
  intros Hwf Hcopy. induction Hcopy as [| e e' m m' He Hcopy IH].
  - constructor.
  - apply Forall_cons in Hwf as [Hobj Hwf].
    constructor; [by rewrite He | by apply IH].
Qed.

(** X5.  Two leaves made one after the other from the same parent, as the
    children of a split are, share no model with each other nor with the
    parent, and in the final store each of them holds, key by key, what the
    parent's models held. *)
Theorem sibling_leaves_share_no_model (self : iSOUPTreeRegressor)
    (stats1 stats2 : option Stats) (active1 active2 : bool)
    (p n1 n2 : LearningNode) (h h1 h2 : Store) (m m1 m2 : ModelMap) :
  _leaf_models p = Ok m →
  Forall (λ e, is_Some (h !! e.2)) m →
  _new_learning_node self stats1 (Some p) active1 h = Ok (n1, h1) →
  _new_learning_node self stats2 (Some p) active2 h1 = Ok (n2, h2) →
  _leaf_models n1 = Ok m1 →
  _leaf_models n2 = Ok m2 →
  Forall (λ e, e.2 ∉ m.*2) m1
  ∧ Forall (λ e, (e.2 ∉ m.*2) ∧ (e.2 ∉ m1.*2)) m2
  ∧ Forall2 (λ e e', h2 !! e'.2 = h !! e.2) m m1
  ∧ Forall2 (λ e e', h2 !! e'.2 = h !! e.2) m m2.
Proof.
  intros Hm Hwf Hrun1 Hrun2 Hm1 Hm2.
  pose proof (new_learning_node_copy _ _ _ _ _ _ _ _ _ Hrun1 Hm Hm1) as Hc1.
  pose proof (new_learning_node_copy _ _ _ _ _ _ _ _ _ Hrun2 Hm Hm2) as Hc2.
  destruct (deepcopy_spec h m m1 h1 Hwf Hc1) as (Hsub1 & _ & Hfresh1 & Hcopy1).
  assert (Forall (λ e, is_Some (h1 !! e.2)) m) as Hwf1.
  { eapply Forall_impl; [exact Hwf |]. intros e [obj Hobj].
    exists obj. by eapply lookup_weaken. }
  assert (Forall (λ e, is_Some (h1 !! e.2)) m1) as Hwf_m1
    by (by apply (copies_allocated h h1 m m1)).
  destruct (deepcopy_spec h1 m m2 h2 Hwf1 Hc2) as (Hsub2 & _ & Hfresh2 & Hcopy2).
  split; [by apply (fresh_not_referenced h) |].
  split.
  - apply Forall_and. split; by apply (fresh_not_referenced h1).
  - split; [by apply (copy_contents_weaken h h1 h2) |].
    clear -Hwf Hsub1 Hcopy2.
    induction Hcopy2 as [| e e' m m2 He Hcopy2 IH]; [constructor |].
    apply Forall_cons in Hwf as [[obj Hobj] Hwf].
    constructor; [| by apply IH].
    rewrite He, Hobj. by eapply lookup_weaken.
Qed.

(** The store after a deep copy: what it had, and the copies. *)
Lemma deepcopy_entries_dom (m : ModelMap) :
  ∀ (memo : gmap loc loc) (h : Store) (r : ModelMap) (h' : Store),
    (∀ l l', memo !! l = Some l' → is_Some (h !! l')) →
    Forall (λ e, is_Some (h !! e.2)) m →
    deepcopy_entries memo h m = (r, h') →
    dom h' = dom h ∪ list_to_set r.*2.
Proof.
  induction m as [|[k l] m IH]; intros memo h r h' Hmemo Hwf Hrun.
  - simpl in Hrun. injection Hrun as <- <-. cbn. by rewrite union_empty_r_L.
  - apply Forall_cons in Hwf as [[obj Hobj] Hwf]. simpl in Hobj.
    simpl in Hrun. destruct (memo !! l) as [l'|] eqn:Hm.
    + destruct (deepcopy_entries memo h m) as [r0 h1] eqn:Hrec.
      injection Hrun as <- <-.
      rewrite (IH _ _ _ _ Hmemo Hwf Hrec). cbn.
      assert (l' ∈ dom h) as Hl' by (apply elem_of_dom; eauto).
      set_solver.
    + rewrite Hobj in Hrun.
      destruct (deepcopy_entries (<[l:=fresh (dom h)]> memo)
                  (<[fresh (dom h):=obj]> h) m) as [r0 h1] eqn:Hrec.
      injection Hrun as <- <-.
      assert (∀ l1 l1', <[l:=fresh (dom h)]> memo !! l1 = Some l1' →
                        is_Some (<[fresh (dom h):=obj]> h !! l1')) as Hmemo'.
      { intros l1 l1' Hl1. destruct (decide (l = l1)) as [<-|Hne].
        - rewrite lookup_insert_eq in Hl1. injection Hl1 as <-.
          rewrite lookup_insert_eq. by eexists.
        - rewrite lookup_insert_ne in Hl1 by done.
          destruct (Hmemo _ _ Hl1) as [o Ho].
          destruct (decide (fresh (dom h) = l1')) as [<- | ?].
          + rewrite lookup_insert_eq. by eexists.
          + rewrite lookup_insert_ne by done. by eexists. }
      assert (Forall (λ e, is_Some (<[fresh (dom h):=obj]> h !! e.2)) m)
        as Hwf'.
      { eapply Forall_impl; [exact Hwf |]. intros e [o Ho].
        destruct (decide (fresh (dom h) = e.2)) as [<- | ?].
        - rewrite lookup_insert_eq. by eexists.
        - rewrite lookup_insert_ne by done. by eexists. }
      rewrite (IH _ _ _ _ Hmemo' Hwf' Hrec).
      rewrite dom_insert_L. cbn. set_solver.
Qed.

(** X6.  A call of the factory keeps every object of the store and adds
    exactly the models of the leaf it returns: nothing else is allocated,
    and a leaf that holds no model map leaves the store as it was. *)
Theorem new_learning_node_store (self : iSOUPTreeRegressor)
    (stats : option Stats) (parent : option LearningNode) (active : bool)
    (h : Store) (n : LearningNode) (h' : Store) :
  _new_learning_node self stats parent active h = Ok (n, h') →
  (∀ p m, parent = Some p → _leaf_models p = Ok m →
          Forall (λ e, is_Some (h !! e.2)) m) →
  h ⊆ h'
  ∧ (∀ m', _leaf_models n = Ok m' → dom h' = dom h ∪ list_to_set m'.*2)
  ∧ (¬ returns (_leaf_models n) → h' = h).
Proof.
  intros Hrun Hwf.
  assert (∀ m', match parent with
                | None => m' = [] ∧ h' = h
                | Some p => ∃ m, _leaf_models p = Ok m ∧ deepcopy h m = (m', h')
                end →
                h ⊆ h' ∧ dom h' = dom h ∪ list_to_set m'.*2) as Hcopied.
  { intros m' Hcopy. destruct parent as [p |].
    - destruct Hcopy as (m & Hm & Hcopy).
      pose proof (Hwf p m eq_refl Hm) as Hwfm.
      destruct (deepcopy_spec h m m' h' Hwfm Hcopy) as (Hsub & _).
      split; [done |].
      apply (deepcopy_entries_dom m ∅ h m' h'); [| done | done].
      intros l l' Hl. by rewrite lookup_empty in Hl.
    - destruct Hcopy as [-> ->]. cbn. split; [done | by rewrite union_empty_r_L]. }
  destruct (new_learning_node_inv _ _ _ _ _ _ _ Hrun)
    as [(Hmd & -> & ->) | [(Hmd & m1 & -> & Hcopy)
                          | (Hmd & m1 & fme & fmo & -> & Hcopy)]]; cbn.
  - split; [done | split; [done | done]].
  - destruct (Hcopied m1 Hcopy) as [Hsub Hdom].
    split; [done | split].
    + intros m' [= <-]. done.
    + intros Hno. exfalso. apply Hno. by eexists.
  - destruct (Hcopied m1 Hcopy) as [Hsub Hdom].
    split; [done | split].
    + intros m' [= <-]. done.
    + intros Hno. exfalso. apply Hno. by eexists.
Qed.

(** *** Further properties of [learn_one] and [predict_one] *)

Section Calls.
Variable leaf_predict_one :
  LearningNode → gmap key F → iSOUPTreeRegressor → Store →
  result (gmap key F).
Variable super_learn_one :
  gset key → gmap key F → gmap key F → F →
  HoeffdingTreeRegressor → Store →
  HoeffdingTreeRegressor * Store * option exn.

Lemma learn_many_cons (c : gmap key F * gmap key F * F)
    (calls : list (gmap key F * gmap key F * F))
    (self : iSOUPTreeRegressor) (h : Store) :
  learn_many super_learn_one (c :: calls) self h
  = learn_many super_learn_one calls
      (learn_one super_learn_one c.1.1 c.1.2 c.2 self h).1.1
      (learn_one super_learn_one c.1.1 c.1.2 c.2 self h).1.2.
Proof.
  destruct c as [[x y] w]. unfold learn_many. cbn.
  by destruct (learn_one super_learn_one x y w self h) as [[self' h'] e].
Qed.

Lemma learn_many_targets (calls : list (gmap key F * gmap key F * F))
    (self : iSOUPTreeRegressor) (h : Store) :
  _targets (learn_many super_learn_one calls self h).1
  = _targets self
    ∪ ⋃ ((λ c : gmap key F * gmap key F * F, dom c.1.2) <$> calls).
Proof.
  revert self h. induction calls as [| c calls IH]; intros self h.
  - cbn. by rewrite union_empty_r_L.
  - rewrite learn_many_cons, IH, learn_one_targets. cbn.
    by rewrite (assoc_L (∪)).
Qed.

(** X7.  After a sequence of [learn_one] calls the tracked target keys
    are exactly the keys tracked before together with the keys of every [y]
    of the sequence; so they depend neither on the order of the calls, nor
    on the features and weights, nor on what the inherited [learn_one]
    did. *)
Theorem targets_are_the_keys_seen :
  (∀ calls (self : iSOUPTreeRegressor) (h : Store),
      _targets (learn_many super_learn_one calls self h).1
      = _targets self
        ∪ ⋃ ((λ c : gmap key F * gmap key F * F, dom c.1.2) <$> calls))
  ∧ (∀ calls calls' (self : iSOUPTreeRegressor) (h h' : Store),
      (λ c : gmap key F * gmap key F * F, c.1.2) <$> calls
      ≡ₚ (λ c : gmap key F * gmap key F * F, c.1.2) <$> calls' →
      _targets (learn_many super_learn_one calls self h).1
      = _targets (learn_many super_learn_one calls' self h').1).
Proof.
  split; [apply learn_many_targets |].
  intros calls calls' self h h' Hperm. rewrite !learn_many_targets.
  f_equal. apply set_eq. intros k. rewrite !elem_of_union_list.
  assert (∀ l : list (gmap key F * gmap key F * F),
            (λ c : gmap key F * gmap key F * F, dom c.1.2) <$> l
            = (dom : gmap key F → gset key)
                <$> ((λ c : gmap key F * gmap key F * F, c.1.2) <$> l)) as Hmap.
  { intros l. by rewrite <- list_fmap_compose. }
  rewrite !Hmap. by setoid_rewrite Hperm.
Qed.

(** X8.  [predict_one] returns [None] exactly when the tree has no root:
    once there is a root, every call gives a target map or raises. *)
Theorem predict_one_none_iff_untrained (self : iSOUPTreeRegressor)
    (h : Store) (x : gmap key F) :
  predict_one leaf_predict_one self h x = Ok None ↔ _tree_root self = None.
Proof.
  unfold predict_one. destruct (_tree_root self) as [root |]; [| done].
  split; [| done].
  destruct (found_node _) as [[l | stats d t children] |].
  - by destruct (leaf_predict_one l x self h).
  - by destruct (mean_prediction stats).
  - destruct (found_parent _) as [parent |]; [| done].
    by destruct (mean_prediction (node_stats parent)).
Qed.

End Calls.

End Tree.

(** *** The definitions at work *)

Example init_prints_nothing :
  (init 200%Q (1 # 10000000)%Q (5 # 100)%Q "model").2 = [].
Proof. reflexivity. Qed.

Example new_tree_mode : _leaf_prediction (new_tree "adaptive") = "adaptive".
Proof. reflexivity. Qed.

Example new_tree_invalid_mode : _leaf_prediction (new_tree "median") = "model".
Proof. reflexivity. Qed.

Example new_tree_criterion : _split_criterion (new_tree "mean") = "icvr".
Proof. reflexivity. Qed.



Example predict_one_at_split_node_value :
  predict_one (Model := unit) mean_leaf_predict_one
    (with_root (seen_split []) (new_tree "model")) ∅ ∅
  = Ok (Some {[ target_t := 2%Q ]}).
Proof. reflexivity. Qed.

(** C2 fails on the inactive branch of the factory.  In adaptive mode the
    inactive leaf made from [adaptive_parent] has the parent's [_fmse_model]
    as its [_fmse_mean], and its [_fmse_model] is the empty map the
    constructor left: the second assignment of the branch targets
    [_fmse_mean] again. *)
Theorem inactive_adaptive_leaf_fmse :
  ∃ n,
    _new_learning_node (Model := unit) (new_tree "adaptive") None
      (Some adaptive_parent) false ∅
    = Ok (n, ∅)
    ∧ _fmse_mean n = Ok {[ target_t := 2%Q ]}
    ∧ _fmse_model n = Ok ∅
    ∧ _fmse_mean adaptive_parent = Ok {[ target_t := 1%Q ]}
    ∧ _fmse_model adaptive_parent = Ok {[ target_t := 2%Q ]}.
Proof. eexists. repeat split; reflexivity. Qed.

(** The active branch, on the same input, copies both maps. *)
Example active_adaptive_leaf_fmse :
  ∃ n,
    _new_learning_node (Model := unit) (new_tree "adaptive") None
      (Some adaptive_parent) true ∅
    = Ok (n, ∅)
    ∧ _fmse_mean n = _fmse_mean adaptive_parent
    ∧ _fmse_model n = _fmse_model adaptive_parent.
Proof. eexists. repeat split; reflexivity. Qed.

(** C4 fails as stated.  On a new tree, a call with weight zero and the
    target [t] leaves [t] tracked, even when the inherited [learn_one]
    changes nothing. *)
Lemma learn_one_zero_weight_changes_targets :
  _targets (new_tree "model") = ∅
  ∧ learn_one (Model := unit) idle_learn_one ∅ {[ target_t := 1%Q ]} 0%Q
      (new_tree "model") ∅
    ≠ (new_tree "model", ∅, None).
Proof.
  split; [reflexivity |]. intros Heq.
  apply (f_equal (λ r, _targets r.1.1)) in Heq.
  rewrite learn_one_targets in Heq.
  change (_targets (new_tree "model")) with (∅ : gset key) in Heq.
  assert (target_t ∈ (∅ : gset key) ∪ dom ({[ target_t := 1%Q ]} : gmap key Q))
    as Hin.
  { apply elem_of_union_r. rewrite dom_singleton_L. by apply elem_of_singleton. }
  rewrite Heq in Hin. by apply not_elem_of_empty in Hin.
Qed.

(** C6 fails as stated.  ['vr'] is not the criterion ['icvr'], yet
    assigning it prints no diagnostic. *)
Lemma split_criterion_vr_no_diagnostic :
  "vr" ≠ "icvr"
  ∧ set_split_criterion "vr" (new_tree "model")
    = (with_split_criterion "icvr" (new_tree "model"), []).
Proof. split; [discriminate | reflexivity]. Qed.

Lemma not_a_mode : "median" ∉ [_TARGET_MEAN; _MODEL; _ADAPTIVE].
Proof.
  intros Hin. repeat (apply elem_of_cons in Hin as [Hin | Hin]; [discriminate |]).
  by apply elem_of_nil in Hin.
Defined.

Lemma configuration_falls_back_witness :
  set_leaf_prediction "median" (new_tree "mean")
  = (with_leaf_prediction "model" (new_tree "mean"),
     [invalid_option "leaf_prediction" "median" "model"])
  ∧ set_split_criterion "gini" (new_tree "mean")
    = (with_split_criterion "icvr" (new_tree "mean"),
       [invalid_option "split_criterion" "gini" "icvr"]).
Proof.
  split.
  - apply (configuration_falls_back "median" (new_tree "mean")), not_a_mode.
  - apply (configuration_falls_back "gini" (new_tree "mean")); discriminate.
Defined.

Example invalid_option_text :
  invalid_option "split_criterion" "gini" "icvr"
  = "Invalid split_criterion option " +:+ dquote +:+ "gini" +:+ dquote
      +:+ ", will use default " +:+ dquote +:+ "icvr" +:+ dquote.
Proof. reflexivity. Qed.

Lemma split_criterion_vr_is_silent_witness :
  set_split_criterion "vr" (new_tree "mean")
  = (with_split_criterion "icvr" (new_tree "mean"), [])
  ∧ (set_split_criterion "mse" (new_tree "mean")).2
    = [invalid_option "split_criterion" "mse" "icvr"].
Proof.
  destruct (split_criterion_vr_is_silent (new_tree "mean")) as [Hvr Hother].
  split; [exact Hvr |].
  apply (Hother "mse"); discriminate.
Defined.

Lemma predict_one_before_training_witness :
  predict_one (Model := unit) mean_leaf_predict_one (new_tree "model") ∅ x_a
  = Ok None.
Proof. apply predict_one_before_training. reflexivity. Defined.

Lemma targets_append_only_witness :
  target_t ∈ _targets
    (learn_many (Model := unit) idle_learn_one
       ([(x_a, {[ target_t := 1%Q ]}, 1%Q)]
          ++ [(x_a, {[ KStr "u" := 3%Q ]}, 1%Q)])%list
       (new_tree "model") ∅).1.
Proof.
  destruct (targets_append_only (Model := unit) idle_learn_one)
    as (_ & Hprefix & _).
  apply Hprefix.
  change (target_t ∈ _targets
            (learn_one (Model := unit) idle_learn_one x_a
               {[ target_t := 1%Q ]} 1%Q (new_tree "model") ∅).1.1).
  rewrite learn_one_targets. apply elem_of_union_r. rewrite dom_singleton_L.
  by apply elem_of_singleton.
Defined.

Lemma new_learning_node_clones_models_witness :
  ∃ n h' m',
    _new_learning_node (Model := Q) (new_tree "model") None
      (Some model_parent) true {[ 0%nat := 7%Q ]}
    = Ok (n, h')
    ∧ _leaf_models n = Ok m'
    ∧ ({[ 0%nat := 7%Q ]} : gmap nat Q) ⊆ h'
    ∧ m'.*1 = [target_t]
    ∧ Forall (λ e, e.2 ∉ dom ({[ 0%nat := 7%Q ]} : gmap nat Q)) m'
    ∧ Forall2 (λ e e', h' !! e'.2 = ({[ 0%nat := 7%Q ]} : gmap nat Q) !! e.2)
        [(target_t, 0%nat)] m'
    ∧ (∀ other : list (key * nat),
         Forall (λ e, is_Some (({[ 0%nat := 7%Q ]} : gmap nat Q) !! e.2)) other →
         Forall (λ e, e.2 ∉ other.*2) m').
Proof.
  assert (_leaf_prediction (new_tree "model") ∈ [_MODEL; _ADAPTIVE]) as Hmode
    by apply list_elem_of_here.
  destruct (new_learning_node_clones_models (Model := Q) (new_tree "model")
              None true {[ 0%nat := 7%Q ]} Hmode) as [_ Hchild].
  apply (Hchild model_parent [(target_t, 0%nat)]).
  - reflexivity.
  - repeat constructor. by eexists.
  - discriminate.
Defined.

Lemma new_learning_node_unbound_local_witness :
  returns (_new_learning_node (Model := Q) (new_tree "adaptive") None None
             true ∅)
  ∧ _new_learning_node (Model := Q)
      (with_leaf_prediction "median" (new_tree "model")) None
      (Some model_parent) false ∅
    = Raise UnboundLocalError.
Proof.
  split.
  - destruct (new_learning_node_unbound_local (Model := Q)
                (new_tree "adaptive") None None true ∅) as [Hvalid _].
    apply Hvalid.
    apply list_elem_of_further, list_elem_of_further, list_elem_of_here.
  - destruct (new_learning_node_unbound_local (Model := Q)
                (with_leaf_prediction "median" (new_tree "model")) None
                (Some model_parent) false ∅) as [_ Hinvalid].
    apply Hinvalid, not_a_mode.
Defined.

(** Two calls in either order track the same keys. *)
Lemma targets_are_the_keys_seen_witness :
  _targets
    (learn_many (Model := unit) idle_learn_one
       [(x_a, {[ target_t := 1%Q ]}, 1%Q); (∅, {[ KStr "u" := 3%Q ]}, 0%Q)]
       (new_tree "model") ∅).1
  = _targets
      (learn_many (Model := unit) idle_learn_one
         [(∅, {[ KStr "u" := 3%Q ]}, 0%Q); (x_a, {[ target_t := 1%Q ]}, 1%Q)]
         (new_tree "model") ∅).1.
Proof.
  destruct (targets_are_the_keys_seen (Model := unit) idle_learn_one)
    as [_ Hperm].
  apply Hperm. apply perm_swap.
Defined.

Lemma new_learning_node_shape_witness :
  leaf_kind (LearningNodeModelMultiTarget (F := Q) true None 1
               [(target_t, 1%nat)])
  = _leaf_prediction (new_tree "model")
  ∧ leaf_depth (LearningNodeModelMultiTarget (F := Q) true None 1
                  [(target_t, 1%nat)])
    = (leaf_depth model_parent + 1)%nat.
Proof.
  destruct (new_learning_node_shape (Model := Q) (new_tree "model") None
              (Some model_parent) true {[ 0%nat := 7%Q ]}
              (LearningNodeModelMultiTarget true None 1 [(target_t, 1%nat)])
              {[ 0%nat := 7%Q; 1%nat := 7%Q ]})
    as (Hkind & _ & _ & Hdepth & _); [reflexivity |].
  split; assumption.
Defined.

(** The two children of a split of [model_parent]: the models are at
    locations 1 and 2, the parent's at 0. *)
Lemma sibling_leaves_share_no_model_witness :
  Forall (λ e : key * nat, e.2 ∉ [(target_t, 0%nat)].*2) [(target_t, 1%nat)]
  ∧ Forall (λ e : key * nat,
              (e.2 ∉ [(target_t, 0%nat)].*2) ∧ (e.2 ∉ [(target_t, 1%nat)].*2))
      [(target_t, 2%nat)]
  ∧ Forall2 (λ e e' : key * nat,
               ({[ 0%nat := 7%Q; 1%nat := 7%Q; 2%nat := 7%Q ]} : gmap nat Q)
                 !! e'.2
               = ({[ 0%nat := 7%Q ]} : gmap nat Q) !! e.2)
      [(target_t, 0%nat)] [(target_t, 1%nat)]
  ∧ Forall2 (λ e e' : key * nat,
               ({[ 0%nat := 7%Q; 1%nat := 7%Q; 2%nat := 7%Q ]} : gmap nat Q)
                 !! e'.2
               = ({[ 0%nat := 7%Q ]} : gmap nat Q) !! e.2)
      [(target_t, 0%nat)] [(target_t, 2%nat)].
Proof.
  apply (sibling_leaves_share_no_model (Model := Q) (new_tree "model")
           None None true false model_parent
           (LearningNodeModelMultiTarget true None 1 [(target_t, 1%nat)])
           (LearningNodeModelMultiTarget false None 1 [(target_t, 2%nat)])
           {[ 0%nat := 7%Q ]} {[ 0%nat := 7%Q; 1%nat := 7%Q ]}
           {[ 0%nat := 7%Q; 1%nat := 7%Q; 2%nat := 7%Q ]}
           [(target_t, 0%nat)]);
    try reflexivity.
  repeat constructor. by eexists.
Defined.

Lemma new_learning_node_store_witness :
  ({[ 0%nat := 7%Q ]} : gmap nat Q) ⊆ {[ 0%nat := 7%Q; 1%nat := 7%Q ]}
  ∧ dom ({[ 0%nat := 7%Q; 1%nat := 7%Q ]} : gmap nat Q)
    = dom ({[ 0%nat := 7%Q ]} : gmap nat Q)
      ∪ list_to_set [(target_t, 1%nat)].*2.
Proof.
  destruct (new_learning_node_store (Model := Q) (new_tree "model") None
              (Some model_parent) true {[ 0%nat := 7%Q ]}
              (LearningNodeModelMultiTarget true None 1 [(target_t, 1%nat)])
              {[ 0%nat := 7%Q; 1%nat := 7%Q ]})
    as (Hsub & Hdom & _).
  - reflexivity.
  - intros p m [= <-] [= <-]. repeat constructor. by eexists.
  - split; [exact Hsub | exact (Hdom _ eq_refl)].
Defined.

Example clone_is_a_new_object :
  _new_learning_node (Model := Q) (new_tree "model") None
    (Some model_parent) true {[ 0%nat := 7%Q ]}
  = Ok (LearningNodeModelMultiTarget true None 1 [(target_t, 1%nat)],
        {[ 0%nat := 7%Q; 1%nat := 7%Q ]}).
Proof. reflexivity. Qed.

End ISoupProps.

(** ** Split evaluation *)

Module SplitEvaluationProps.
Import ISoup SplitEvaluation.

Local Open Scope R_scope.

Section SplitEvaluation.
Context {Model : Type}.
Variable range_of_merit : R.

Lemma Rltb_true (a b : R) : Rltb a b = true ↔ a < b.
Proof. unfold Rltb. destruct (Rlt_dec a b); split; intros; done. Qed.

Lemma Rltb_false (a b : R) : Rltb a b = false ↔ b <= a.
Proof.
  unfold Rltb. destruct (Rlt_dec a b); split; intros Hx; try done; lra.
Qed.





Lemma should_split_iff (m1 m2 eps tie : R) :
  should_split m1 m2 eps tie = true ↔ m1 - m2 > eps ∨ (eps < tie ∧ m1 > 0).
Proof.
  unfold should_split.
  rewrite orb_true_iff, andb_true_iff, !Rltb_true. unfold Rgt. tauto.
Qed.


End SplitEvaluation.

(** *** The definitions at work *)

Lemma sort_one_suggestion :
  sort_desc [do_not_split; a_suggestion] = [a_suggestion; do_not_split].
Proof.
  cbv [sort_desc foldr insert_desc do_not_split a_suggestion merit].
  destruct (Rltb_false 1 0) as [_ Hge]. rewrite Hge; [reflexivity | lra].
Defined.


Lemma ln_below (y : R) : 0 < y → ln y < y.
Proof.
  intros Hy. pose proof (exp_ln y Hy) as He.
  destruct (Req_dec_T (ln y) 0) as [Hz | Hnz]; [lra |].
  pose proof (exp_ineq1 (ln y) Hnz). lra.
Qed.

(** With the default confidence and ten million observations the bound is
    below 1. *)
Lemma bound_below_one : confidence_bound 1 a_tree a_leaf < 1.
Proof.
  change (sqrt (1 * 1 * ln (1 / (1 / 10000000)) / (2 * 10000000)) < 1).
  replace (1 / (1 / 10000000)) with 10000000 by lra.
  apply Rlt_le_trans with (sqrt 1); [| rewrite sqrt_1; lra].
  apply sqrt_lt_1_alt.
  pose proof (ln_below 10000000 ltac:(lra)) as Hup.
  assert (0 <= ln 10000000) as Hlo.
  { rewrite <- ln_1. apply Rlt_le, ln_increasing; lra. }
  split.
  - apply Rmult_le_pos; [lra |]. apply Rlt_le, Rinv_0_lt_compat. lra.
  - apply (Rmult_lt_reg_r (2 * 10000000)); [lra |].
    unfold Rdiv. rewrite Rmult_assoc, Rinv_l by lra. lra.
Qed.

(** A candidate of merit 1 against the implicit candidate of merit 0: the
    split is committed and the leaf is replaced by a split node with one
    child per branch. *)
Example split_is_committed :
  split_committed 1 a_tree a_leaf [a_suggestion] = true.
Proof.
  unfold split_committed. rewrite sort_one_suggestion.
  apply should_split_iff. left.
  pose proof bound_below_one as Hb.
  change (merit a_suggestion) with 1. change (merit do_not_split) with 0. lra.
Qed.

Example split_replaces_leaf :
  attempt_to_split (Model := unit) 1 a_tree a_leaf [a_suggestion] ∅
  = Ok (SplitNode (leaf_stats a_leaf) 0 a_test
          [(0%Z, Leaf (LearningNodeMean true (Some branch_stats) 1))], ∅).
Proof.
  unfold attempt_to_split.
  rewrite split_is_committed, sort_one_suggestion. reflexivity.
Qed.

End SplitEvaluationProps.

(** ** The random under-sampler *)

Module ImblearnProps.
Import Imblearn.

Section RandomUnderSampler.
Context {F : Type} `{Number F}.
Context {X Label : Type} `{EqDecision Label}.
Context {Rng : Type} (rng_random : Rng → F * Rng).

Local Abbreviation RandomUnderSampler :=
  (RandomUnderSampler (F := F) (X := X) (Label := Label) (Rng := Rng)).

Lemma counter_get_incr_same (c : list (Label * nat)) (k : Label) :
  counter_get (counter_incr c k) k = S (counter_get c k).
Proof.
  induction c as [|[k' n] c IH]; simpl.
  - by rewrite decide_True.
  - destruct (decide (k' = k)) as [Heq | Hne]; simpl.
    + rewrite decide_True by done. lia.
    + by rewrite decide_False.
Qed.

Lemma counter_get_incr_other (c : list (Label * nat)) (k k0 : Label) :
  k0 ≠ k → counter_get (counter_incr c k) k0 = counter_get c k0.
Proof.
  intros Hne. induction c as [|[k' n] c IH]; simpl.
  - by rewrite decide_False.
  - destruct (decide (k' = k)) as [-> | Hk]; simpl.
    + by rewrite !decide_False.
    + destruct (decide (k' = k0)); done.
Qed.

Lemma fit_one_actual_dist (x : X) (y : Label) (self : RandomUnderSampler) :
  _actual_dist (fit_one rng_random x y self).1 = counter_incr (_actual_dist self) y.
Proof.
  unfold fit_one. cbn. destruct (decide (Some y ≠ _pivot self)); [| done].
  destruct (max_by _ _) as [pivot | e]; [| done]. cbn.
  destruct (_ ≫= _) as [ratio | e]; [| done].
  destruct (num_lt ratio _); [| done].
  destruct (rng_random _) as [u rng]. by destruct (num_lt u ratio).
Qed.

Lemma fit_one_classifier (x : X) (y : Label) (self : RandomUnderSampler) :
  classifier (fit_one rng_random x y self).1 = classifier self
  ∨ classifier (fit_one rng_random x y self).1 = classifier self ++ [(x, y)].
Proof.
  unfold fit_one. cbn. destruct (decide (Some y ≠ _pivot self)); [| by right].
  destruct (max_by _ _) as [pivot | e]; [| by left]. cbn.
  destruct (_ ≫= _) as [ratio | e]; [| by left].
  destruct (num_lt ratio _); [| by left].
  destruct (rng_random _) as [u rng].
  destruct (num_lt u ratio); [by right | by left].
Qed.

Lemma fit_one_pivot (x : X) (y : Label) (self : RandomUnderSampler) :
  _pivot self = Some y →
  fit_one rng_random x y self
  = (call_classifier x y
       (with_actual_dist (counter_incr (_actual_dist self) y) self), None).
Proof.
  intros Hp. unfold fit_one. cbn. rewrite Hp.
  by rewrite decide_False by (by intros []).
Qed.

(** C10.  One call of [fit_one] hands the observation to the classifier
    at most once; when [y] is the current pivot it hands it over exactly
    once, without consulting the generator and without raising; and in
    every case, raising or not, the count of [y] goes up by one and no
    other count changes. *)
Theorem fit_one_trains_at_most_once (x : X) (y : Label)
    (self : RandomUnderSampler) :
  (classifier (fit_one rng_random x y self).1 = classifier self
   ∨ classifier (fit_one rng_random x y self).1 = classifier self ++ [(x, y)])
  ∧ (_pivot self = Some y →
     classifier (fit_one rng_random x y self).1 = classifier self ++ [(x, y)]
     ∧ _rng (fit_one rng_random x y self).1 = _rng self
     ∧ (fit_one rng_random x y self).2 = None)
  ∧ counter_get (_actual_dist (fit_one rng_random x y self).1) y
    = S (counter_get (_actual_dist self) y)
  ∧ (∀ y', y' ≠ y →
       counter_get (_actual_dist (fit_one rng_random x y self).1) y'
       = counter_get (_actual_dist self) y').
Proof.
  split; [apply fit_one_classifier | split; [| split]].
  - intros Hp. by rewrite (fit_one_pivot x y self Hp).
  - rewrite fit_one_actual_dist. apply counter_get_incr_same.
  - intros y' Hne. rewrite fit_one_actual_dist.
    by apply counter_get_incr_other.
Qed.

(** *** Further properties of the under-sampler *)

Lemma fit_many_cons (o : X * Label) (observations : list (X * Label))
    (self : RandomUnderSampler) :
  fit_many rng_random (o :: observations) self
  = fit_many rng_random observations (fit_one rng_random o.1 o.2 self).1.
Proof. reflexivity. Qed.

(** X9.  After a stream of observations the counter has, for every class,
    the count it had before plus the number of observations of that class
    in the stream, whether or not calls raised and whatever the generator
    drew. *)
Theorem under_sampler_counts_every_observation
    (observations : list (X * Label)) (self : RandomUnderSampler) (c : Label) :
  counter_get (_actual_dist (fit_many rng_random observations self)) c
  = (counter_get (_actual_dist self) c
     + length (filter (λ o : X * Label, o.2 = c) observations))%nat.
Proof.
  revert self. induction observations as [| [x y] obs IH]; intros self.
  - cbn. lia.
  - rewrite fit_many_cons, IH, fit_one_actual_dist. cbn [fst snd].
    rewrite filter_cons. cbn [snd]. destruct (decide (y = c)) as [-> | Hne].
    + rewrite counter_get_incr_same. cbn. lia.
    + rewrite counter_get_incr_other by done. lia.
Qed.

(** X10.  Over a stream the classifier is given a subsequence of the
    observations: what it has received afterwards is what it had received
    before, followed by some of the observations, each at most once and in
    the order of the stream. *)
Theorem under_sampler_passes_a_subsequence
    (observations : list (X * Label)) (self : RandomUnderSampler) :
  ∃ kept,
    classifier (fit_many rng_random observations self)
    = classifier self ++ kept
    ∧ sublist kept observations.
Proof.
  revert self. induction observations as [| [x y] obs IH]; intros self.
  - exists []. cbn. by rewrite app_nil_r.
  - rewrite fit_many_cons. cbn [fst snd].
    destruct (IH (fit_one rng_random x y self).1) as (kept & Hkept & Hsub).
    destruct (fit_one_classifier x y self) as [Hsame | Hcalled].
    + exists kept. rewrite Hkept, Hsame. split; [done |].
      by apply sublist_cons.
    + exists ((x, y) :: kept). rewrite Hkept, Hcalled, <- app_assoc.
      split; [done |]. by apply sublist_skip.
Qed.

(** When [max] fails, either there was no item or the key of an item
    raised. *)
Lemma max_from_raises (key : Label → result F) (items : list Label) :
  ∀ maxitem maxval e,
    max_from key maxitem maxval items = Raise e →
    ∃ item, item ∈ items ∧ key item = Raise e.
Proof.
  induction items as [| item items IH]; intros maxitem maxval e Hrun.
  - discriminate Hrun.
  - simpl in Hrun. destruct (key item) as [val | e'] eqn:Hkey.
    + cbn in Hrun. destruct (num_lt maxval val);
        destruct (IH _ _ _ Hrun) as (i & Hi & Hraise);
        exists i; split; try done; by apply list_elem_of_further.
    + cbn in Hrun. injection Hrun as <-.
      exists item. split; [apply list_elem_of_here | done].
Qed.

Lemma max_by_raises (key : Label → result F) (items : list Label) (e : exn) :
  max_by key items = Raise e →
  (items = [] ∧ e = ValueError) ∨ ∃ item, item ∈ items ∧ key item = Raise e.
Proof.
  destruct items as [| item items]; intros Hrun.
  - left. by injection Hrun as <-.
  - right. simpl in Hrun. destruct (key item) as [val | e'] eqn:Hkey.
    + cbn in Hrun. destruct (max_from_raises _ _ _ _ _ Hrun) as (i & Hi & Hr).
      exists i. split; [by apply list_elem_of_further | done].
    + cbn in Hrun. injection Hrun as <-.
      exists item. split; [apply list_elem_of_here | done].
Qed.

(** [max] fails as soon as the key of one item raises. *)
Lemma max_from_key_raises (key : Label → result F) (items : list Label)
    (item : Label) (e : exn) :
  item ∈ items → key item = Raise e →
  ∀ maxitem maxval, ∃ e', max_from key maxitem maxval items = Raise e'.
Proof.
  intros Hin Hkey. induction items as [| i items IH]; intros maxitem maxval.
  - by apply elem_of_nil in Hin.
  - simpl. destruct (key i) as [val | e'] eqn:Hi; [| by eexists].
    cbn. apply elem_of_cons in Hin as [-> | Hin]; [congruence |].
    destruct (num_lt maxval val); by apply IH.
Qed.

Lemma max_by_key_raises (key : Label → result F) (items : list Label)
    (item : Label) (e : exn) :
  item ∈ items → key item = Raise e → ∃ e', max_by key items = Raise e'.
Proof.
  intros Hin Hkey. destruct items as [| i items].
  - by apply elem_of_nil in Hin.
  - simpl. destruct (key i) as [val | e'] eqn:Hi; [| by eexists].
    cbn. apply elem_of_cons in Hin as [-> | Hin]; [congruence |].
    by eapply max_from_key_raises.
Qed.

Lemma counter_incr_keys (c : list (Label * nat)) (k : Label) :
  k ∈ (counter_incr c k).*1.
Proof.
  induction c as [| [k' n] c IH]; simpl.
  - apply list_elem_of_here.
  - destruct (decide (k' = k)) as [-> | Hne]; simpl.
    + apply list_elem_of_here.
    + by apply list_elem_of_further.
Qed.

Lemma likelihood_ratio_raises (self : RandomUnderSampler) (y : Label) (e : exn) :
  likelihood_ratio self y = Raise e → e = KeyError ∨ e = ZeroDivisionError.
Proof.
  unfold likelihood_ratio. intros Hrun.
  destruct (dict_get (desired_dist self) y) as [fy | e'] eqn:Hget.
  - cbn in Hrun. unfold truediv in Hrun.
    destruct (num_is_zero _); [| done]. injection Hrun as <-. by right.
  - cbn in Hrun. injection Hrun as <-. left.
    clear -Hget. induction (desired_dist self) as [| [k v] d IH]; simpl in Hget.
    + by injection Hget as <-.
    + destruct (decide (k = y)); [done | by apply IH].
Qed.

(** X11.  An observation whose class is not a key of [desired_dist] makes
    [fit_one] raise, unless that class is the current pivot: the exception
    is [KeyError] or [ZeroDivisionError], the classifier, the pivot and the
    generator are left as they were, and the observation has been counted
    all the same. *)
Theorem under_sampler_unlisted_class (x : X) (y : Label)
    (self : RandomUnderSampler) :
  dict_get (desired_dist self) y = Raise KeyError →
  Some y ≠ _pivot self →
  (∃ e, (fit_one rng_random x y self).2 = Some e
        ∧ (e = KeyError ∨ e = ZeroDivisionError))
  ∧ classifier (fit_one rng_random x y self).1 = classifier self
  ∧ _pivot (fit_one rng_random x y self).1 = _pivot self
  ∧ _rng (fit_one rng_random x y self).1 = _rng self
  ∧ counter_get (_actual_dist (fit_one rng_random x y self).1) y
    = S (counter_get (_actual_dist self) y).
Proof.
  intros Hget Hpivot.
  assert (counter_get (_actual_dist (fit_one rng_random x y self).1) y
          = S (counter_get (_actual_dist self) y)) as Hcount
    by (rewrite fit_one_actual_dist; apply counter_get_incr_same).
  revert Hcount. unfold fit_one. cbn.
  rewrite decide_True by done.
  set (self' := with_actual_dist (counter_incr (_actual_dist self) y) self).
  assert (likelihood_ratio self' y = Raise KeyError) as Hkey.
  { unfold likelihood_ratio. subst self'. cbn. by rewrite Hget. }
  destruct (max_by_key_raises (likelihood_ratio self')
              (counter_incr (_actual_dist self) y).*1 y KeyError
              (counter_incr_keys _ _) Hkey) as [e He].
  rewrite He. cbn. intros Hcount. repeat split; try done.
  exists e. split; [done |].
  destruct (max_by_raises _ _ _ He) as [[Hnil _] | (i & _ & Hi)].
  - pose proof (counter_incr_keys (_actual_dist self) y) as Hin.
    rewrite Hnil in Hin. by apply elem_of_nil in Hin.
  - by eapply likelihood_ratio_raises.
Qed.

End RandomUnderSampler.

(** *** The under-sampler when no quotient or product of numbers that are
    not zero is zero *)

Section NoZeroDivisors.
Context {F : Type} `{Number F}.
Context {X Label : Type} `{EqDecision Label}.
Context {Rng : Type} (rng_random : Rng → F * Rng).

Local Abbreviation RandomUnderSampler :=
  (RandomUnderSampler (F := F) (X := X) (Label := Label) (Rng := Rng)).

(** What is asked of the numbers: a positive count is not zero, and neither
    is the quotient or the product of two numbers that are not zero (exact
    arithmetic; floating point as long as nothing underflows). *)
Hypothesis count_not_zero : ∀ n, num_is_zero (num_of_nat (S n)) = false.
Hypothesis div_not_zero : ∀ a b,
  num_is_zero a = false → num_is_zero b = false →
  num_is_zero (num_div a b) = false.
Hypothesis mul_not_zero : ∀ a b,
  num_is_zero a = false → num_is_zero b = false →
  num_is_zero (num_mul a b) = false.

Lemma counter_incr_positive (c : list (Label * nat)) (k : Label) :
  Forall (λ e, (0 < e.2)%nat) c →
  Forall (λ e, (0 < e.2)%nat) (counter_incr c k).
Proof.
  induction c as [| [k' n] c IH]; intros Hpos; simpl.
  - repeat constructor.
  - apply Forall_cons in Hpos as [Hn Hpos].
    destruct (decide (k' = k)); constructor; auto. simpl. lia.
Qed.

Lemma counter_get_positive (c : list (Label * nat)) (k : Label) :
  Forall (λ e, (0 < e.2)%nat) c → k ∈ c.*1 → (0 < counter_get c k)%nat.
Proof.
  induction c as [| [k' n] c IH]; intros Hpos Hin; simpl.
  - by apply elem_of_nil in Hin.
  - apply Forall_cons in Hpos as [Hn Hpos].
    destruct (decide (k' = k)) as [-> | Hne]; [done |].
    apply IH; [done |]. simpl in Hin.
    by apply elem_of_cons in Hin as [-> | Hin].
Qed.

Lemma counter_incr_keys_inv (c : list (Label * nat)) (k k0 : Label) :
  k0 ∈ (counter_incr c k).*1 → k0 = k ∨ k0 ∈ c.*1.
Proof.
  induction c as [| [k' n] c IH]; simpl; intros Hin.
  - apply list_elem_of_singleton in Hin. by left.
  - destruct (decide (k' = k)) as [-> | Hne]; simpl in Hin.
    + by right.
    + apply elem_of_cons in Hin as [-> | Hin].
      * right. apply list_elem_of_here.
      * destruct (IH Hin) as [-> | Hc]; [by left |].
        right. by apply list_elem_of_further.
Qed.

Lemma likelihood_ratio_listed (self : RandomUnderSampler) (k : Label) :
  well_listed self → k ∈ (_actual_dist self).*1 →
  ∃ v, likelihood_ratio self k = Ok v ∧ num_is_zero v = false.
Proof.
  intros [Hpos Hlisted] Hin. destruct (Hlisted k Hin) as (fk & Hfk & Hnz).
  pose proof (counter_get_positive _ _ Hpos Hin) as Hcount.
  destruct (counter_get (_actual_dist self) k) as [| n] eqn:Hn; [lia |].
  unfold likelihood_ratio, truediv. rewrite Hfk. cbn.
  rewrite Hn, count_not_zero. eexists. split; [done |].
  by apply div_not_zero.
Qed.

Lemma max_from_returns (key : Label → result F) (items : list Label) :
  (∀ i, i ∈ items → returns (key i)) →
  ∀ maxitem maxval,
    ∃ p, max_from key maxitem maxval items = Ok p
         ∧ (p = maxitem ∨ p ∈ items).
Proof.
  induction items as [| item items IH]; intros Hkeys maxitem maxval.
  - exists maxitem. split; [done | by left].
  - simpl. destruct (Hkeys item (list_elem_of_here _ _)) as [val ->]. cbn.
    assert (∀ i, i ∈ items → returns (key i)) as Hrest
      by (intros i Hi; by apply Hkeys, list_elem_of_further).
    destruct (num_lt maxval val).
    + destruct (IH Hrest item val) as (p & -> & Hp). exists p.
      split; [done |]. right. destruct Hp as [-> | Hp].
      * apply list_elem_of_here.
      * by apply list_elem_of_further.
    + destruct (IH Hrest maxitem maxval) as (p & -> & Hp). exists p.
      split; [done |]. destruct Hp as [-> | Hp]; [by left |].
      right. by apply list_elem_of_further.
Qed.

Lemma max_by_returns (key : Label → result F) (items : list Label) :
  items ≠ [] →
  (∀ i, i ∈ items → returns (key i)) →
  ∃ p, max_by key items = Ok p ∧ p ∈ items.
Proof.
  destruct items as [| item items]; [done |]. intros _ Hkeys. simpl.
  destruct (Hkeys item (list_elem_of_here _ _)) as [val ->]. cbn.
  destruct (max_from_returns key items) with (maxitem := item) (maxval := val)
    as (p & -> & Hp).
  { intros i Hi. by apply Hkeys, list_elem_of_further. }
  exists p. split; [done |]. destruct Hp as [-> | Hp].
  - apply list_elem_of_here.
  - by apply list_elem_of_further.
Qed.

Lemma fit_one_desired_dist (x : X) (y : Label) (self : RandomUnderSampler) :
  desired_dist (fit_one rng_random x y self).1 = desired_dist self.
Proof.
  unfold fit_one. cbn. destruct (decide (Some y ≠ _pivot self)); [| done].
  destruct (max_by _ _) as [pivot | e]; [| done]. cbn.
  destruct (_ ≫= _) as [ratio | e]; [| done].
  destruct (num_lt ratio _); [| done].
  destruct (rng_random _) as [u rng]. by destruct (num_lt u ratio).
Qed.

Lemma counted_well_listed (y : Label) (self : RandomUnderSampler) :
  well_listed self → listed (desired_dist self) y →
  well_listed (with_actual_dist (counter_incr (_actual_dist self) y) self).
Proof.
  intros [Hpos Hlisted] Hy. split; cbn.
  - by apply counter_incr_positive.
  - intros k Hk. destruct (counter_incr_keys_inv _ _ _ Hk) as [-> | Hin]; auto.
Qed.

Lemma fit_one_well_listed (x : X) (y : Label) (self : RandomUnderSampler) :
  well_listed self → listed (desired_dist self) y →
  (fit_one rng_random x y self).2 = None
  ∧ well_listed (fit_one rng_random x y self).1.
Proof.
  intros Hwl Hy.
  pose proof (counted_well_listed y self Hwl Hy) as Hwl'.
  split.
  2: { destruct Hwl' as [Hpos Hlisted]. split.
       - by rewrite fit_one_actual_dist.
       - rewrite fit_one_actual_dist, fit_one_desired_dist. exact Hlisted. }
  unfold fit_one. cbn. destruct (decide (Some y ≠ _pivot self)); [| done].
  set (self' := with_actual_dist (counter_incr (_actual_dist self) y) self)
    in *.
  destruct (max_by_returns (likelihood_ratio self')
              (counter_incr (_actual_dist self) y).*1) as (p & Hmax & Hp).
  { intros Hnil. pose proof (counter_incr_keys (_actual_dist self) y) as Hin.
    rewrite Hnil in Hin. by apply elem_of_nil in Hin. }
  { intros i Hi. destruct (likelihood_ratio_listed self' i Hwl' Hi) as (v & -> & _).
    by eexists. }
  rewrite Hmax. cbn.
  destruct (likelihood_ratio_listed self' p Hwl' Hp) as (M & HM & HMnz).
  unfold likelihood_ratio, self' in HM. cbn in HM. rewrite HM. cbn.
  destruct Hy as (fy & Hfy & Hfynz). rewrite Hfy. cbn.
  rewrite counter_get_incr_same. unfold truediv.
  rewrite mul_not_zero by (done || apply count_not_zero).
  destruct (num_lt _ _); [| done].
  destruct (rng_random _) as [u rng]. by destruct (num_lt u _).
Qed.

(** X12.  Started from a new sampler, on a stream whose classes all are
    keys of [desired_dist] with a share that is not zero, no call of
    [fit_one] raises. *)
Theorem under_sampler_never_raises (classifier0 : list (X * Label)) (rng : Rng)
    (desired : list (Label * F)) (earlier : list (X * Label)) (o : X * Label) :
  (∀ o', o' ∈ earlier ++ [o] → listed desired o'.2) →
  (fit_one rng_random o.1 o.2
     (fit_many rng_random earlier (init classifier0 rng desired))).2 = None.
Proof.
  intros Hlisted.
  assert (∀ obs (self : RandomUnderSampler),
            desired_dist self = desired → well_listed self →
            (∀ o', o' ∈ obs → listed desired o'.2) →
            desired_dist (fit_many rng_random obs self) = desired
            ∧ well_listed (fit_many rng_random obs self)) as Hstream.
  { induction obs as [| o' obs IH]; intros self Hd Hwl Hobs; [done |].
    rewrite fit_many_cons. apply IH.
    - by rewrite fit_one_desired_dist.
    - apply fit_one_well_listed; [done |]. rewrite Hd.
      apply Hobs, list_elem_of_here.
    - intros o'' Ho''. by apply Hobs, list_elem_of_further. }
  destruct (Hstream earlier (init classifier0 rng desired)) as [Hd Hwl].
  - done.
  - split; [constructor |]. intros k Hk. by apply elem_of_nil in Hk.
  - intros o' Ho'. apply Hlisted, elem_of_app. by left.
  - apply fit_one_well_listed; [done |]. rewrite Hd.
    apply Hlisted, elem_of_app. right. apply list_elem_of_here.
Qed.


End NoZeroDivisors.

(** *** The under-sampler in exact arithmetic *)

Section ExactArithmetic.
Context {X Label : Type} `{EqDecision Label}.
Context {Rng : Type} (rng_random : Rng → Q * Rng).

Local Abbreviation RandomUnderSampler :=
  (RandomUnderSampler (F := Q) (X := X) (Label := Label) (Rng := Rng)).

Lemma Q_is_zero (q : Q) : num_is_zero q = true ↔ (q == 0)%Q.
Proof. apply Qeq_bool_iff. Qed.

Lemma Q_not_zero (q : Q) : num_is_zero q = false ↔ ¬ (q == 0)%Q.
Proof.
  split.
  - intros Hz Hq. apply Q_is_zero in Hq. congruence.
  - intros Hq. destruct (num_is_zero q) eqn:Hz; [| done].
    by apply Q_is_zero in Hz.
Qed.

Lemma Q_count_not_zero (n : nat) : num_is_zero (num_of_nat (S n) : Q) = false.
Proof. apply Q_not_zero. cbn. unfold Qeq. cbn. lia. Qed.

Lemma Q_div_not_zero (a b : Q) :
  num_is_zero a = false → num_is_zero b = false →
  num_is_zero (num_div a b) = false.
Proof.
  rewrite !Q_not_zero. intros Ha Hb. cbn. rewrite Qred_correct.
  intros Hq. apply Ha.
  assert (a == a / b * b)%Q as Hab by (field; done).
  rewrite Hab, Hq. ring.
Qed.

Lemma Q_mul_not_zero (a b : Q) :
  num_is_zero a = false → num_is_zero b = false →
  num_is_zero (num_mul a b) = false.
Proof.
  rewrite !Q_not_zero. intros Ha Hb. cbn. rewrite Qred_correct.
  intros Hq. by destruct (Qmult_integral _ _ Hq).
Qed.



End ExactArithmetic.

(** *** The definitions at work *)

(** The very first observation makes its class the pivot with ratio 1 and
    is not passed on. *)
Example first_observation :
  fit_one replay 7%nat false (sampler [] None [(1 # 4)%Q])
  = (sampler [(false, 1%nat)] (Some false) [(1 # 4)%Q], None).
Proof. reflexivity. Qed.

(** With three [false] seen and one [true], a fourth [false] has ratio
    1/4 against the pivot [true]: it is passed on when the draw is below. *)
Example rejection_accepts :
  fit_one replay 7%nat false
    (sampler [(false, 3%nat); (true, 1%nat)] (Some true) [(1 # 5)%Q])
  = ({| classifier := [(7%nat, false)];
        _rng := [];
        desired_dist := balanced;
        _actual_dist := [(false, 4%nat); (true, 1%nat)];
        _pivot := Some true |}, None).
Proof. reflexivity. Qed.

Example rejection_rejects :
  fit_one replay 7%nat false
    (sampler [(false, 3%nat); (true, 1%nat)] (Some true) [(1 # 3)%Q])
  = ({| classifier := [];
        _rng := [];
        desired_dist := balanced;
        _actual_dist := [(false, 4%nat); (true, 1%nat)];
        _pivot := Some true |}, None).
Proof. reflexivity. Qed.

(** A class the desired distribution does not list: the call raises, the
    count has been taken all the same. *)
Example unknown_class_is_counted :
  fit_one (Label := nat) replay 7%nat 5%nat
    {| classifier := []; _rng := []; desired_dist := [(1%nat, 1%Q)];
       _actual_dist := [(1%nat, 2%nat)]; _pivot := Some 1%nat |}
  = ({| classifier := []; _rng := []; desired_dist := [(1%nat, 1%Q)];
        _actual_dist := [(1%nat, 2%nat); (5%nat, 1%nat)];
        _pivot := Some 1%nat |}, Some KeyError).
Proof. reflexivity. Qed.

Lemma under_sampler_unlisted_class_witness :
  classifier (fit_one replay 7%nat 5%nat one_class_sampler).1 = []
  ∧ counter_get (_actual_dist (fit_one replay 7%nat 5%nat one_class_sampler).1)
      5%nat
    = 1%nat.
Proof.
  destruct (under_sampler_unlisted_class replay 7%nat 5%nat one_class_sampler)
    as (_ & Hlog & _ & _ & Hcount).
  - reflexivity.
  - discriminate.
  - split; [exact Hlog | exact Hcount].
Defined.

Lemma under_sampler_never_raises_witness :
  (fit_one replay 8%nat true
     (fit_many replay [(7%nat, false)] (init [] [(1 # 4)%Q] balanced))).2
  = None.
Proof.
  apply (under_sampler_never_raises replay Q_count_not_zero Q_div_not_zero
           Q_mul_not_zero [] [(1 # 4)%Q] balanced [(7%nat, false)]
           (8%nat, true)).
  intros o' Ho'.
  apply elem_of_app in Ho' as [Ho' | Ho'];
    apply list_elem_of_singleton in Ho' as ->;
    eexists; split; reflexivity.
Defined.


Lemma fit_one_trains_at_most_once_witness :
  classifier
    (fit_one replay 7%nat true
       (sampler [(false, 3%nat); (true, 1%nat)] (Some true) [(9 # 10)%Q])).1
  = [(7%nat, true)]
  ∧ _rng
      (fit_one replay 7%nat true
         (sampler [(false, 3%nat); (true, 1%nat)] (Some true) [(9 # 10)%Q])).1
    = [(9 # 10)%Q]
  ∧ (fit_one replay 7%nat true
       (sampler [(false, 3%nat); (true, 1%nat)] (Some true) [(9 # 10)%Q])).2
    = None.
Proof.
  apply (fit_one_trains_at_most_once replay 7%nat true
           (sampler [(false, 3%nat); (true, 1%nat)] (Some true) [(9 # 10)%Q])).
  reflexivity.
Defined.

End ImblearnProps.

(** ** The random over-sampler *)

Module OverSamplerProps.
Import Imblearn OverSampler.

Section RandomOverSampler.
Context {F : Type} `{Number F}.
Context {X Label : Type} `{EqDecision Label}.
Context {Rng : Type} (rng_poisson : F → Rng → result nat * Rng).

Local Abbreviation RandomOverSampler :=
  (RandomOverSampler (F := F) (X := X) (Label := Label) (Rng := Rng)).

Lemma over_fit_one_actual_dist (x : X) (y : Label) (self : RandomOverSampler) :
  _actual_dist (fit_one rng_poisson x y self).1
  = counter_incr (_actual_dist self) y.
Proof.
  unfold fit_one. cbn. destruct (decide (Some y ≠ _pivot self)); [| done].
  destruct (max_by _ _) as [pivot | e]; [| done]. cbn.
  destruct (_ ≫= _) as [rate | e]; [| done].
  destruct (rng_poisson _ _) as [[count | e] rng]; done.
Qed.

Lemma over_fit_one_classifier (x : X) (y : Label) (self : RandomOverSampler) :
  ∃ count,
    classifier (fit_one rng_poisson x y self).1
    = classifier self ++ replicate count (x, y)
    ∧ ((fit_one rng_poisson x y self).2 ≠ None → count = 0%nat).
Proof.
  unfold fit_one. cbn. destruct (decide (Some y ≠ _pivot self)).
  2: { exists 1%nat. by split. }
  destruct (max_by _ _) as [pivot | e].
  2: { exists 0%nat. cbn. by rewrite app_nil_r. }
  cbn. destruct (_ ≫= _) as [rate | e].
  2: { exists 0%nat. cbn. by rewrite app_nil_r. }
  destruct (rng_poisson _ _) as [[count | e] rng].
  - exists count. by split.
  - exists 0%nat. cbn. by rewrite app_nil_r.
Qed.

Lemma over_fit_one_pivot (x : X) (y : Label) (self : RandomOverSampler) :
  _pivot self = Some y →
  fit_one rng_poisson x y self
  = (call_classifier 1 x y
       (with_actual_dist (counter_incr (_actual_dist self) y) self), None).
Proof.
  intros Hp. unfold fit_one. cbn. rewrite Hp.
  by rewrite decide_False by (by intros []).
Qed.

(** X14.  One call of the over-sampler's [fit_one] gives the classifier
    the observation some number of times and nothing else: no copy when the
    call raises, exactly one, without consulting the generator and without
    raising, when [y] is the current pivot.  In every case the count of [y]
    goes up by one and no other count changes. *)
Theorem over_sampler_fit_one (x : X) (y : Label) (self : RandomOverSampler) :
  (∃ count,
     classifier (fit_one rng_poisson x y self).1
     = classifier self ++ replicate count (x, y)
     ∧ ((fit_one rng_poisson x y self).2 ≠ None → count = 0%nat))
  ∧ (_pivot self = Some y →
     classifier (fit_one rng_poisson x y self).1 = classifier self ++ [(x, y)]
     ∧ _rng (fit_one rng_poisson x y self).1 = _rng self
     ∧ (fit_one rng_poisson x y self).2 = None)
  ∧ counter_get (_actual_dist (fit_one rng_poisson x y self).1) y
    = S (counter_get (_actual_dist self) y)
  ∧ (∀ y', y' ≠ y →
       counter_get (_actual_dist (fit_one rng_poisson x y self).1) y'
       = counter_get (_actual_dist self) y').
Proof.
  split; [apply over_fit_one_classifier | split; [| split]].
  - intros Hp. by rewrite (over_fit_one_pivot x y self Hp).
  - rewrite over_fit_one_actual_dist.
    apply ImblearnProps.counter_get_incr_same.
  - intros y' Hne. rewrite over_fit_one_actual_dist.
    by apply ImblearnProps.counter_get_incr_other.
Qed.

Lemma over_fit_many_cons (o : X * Label) (observations : list (X * Label))
    (self : RandomOverSampler) :
  fit_many rng_poisson (o :: observations) self
  = fit_many rng_poisson observations (fit_one rng_poisson o.1 o.2 self).1.
Proof. reflexivity. Qed.

(** X15.  Over a stream the over-sampler gives the classifier each
    observation some number of times, possibly none, in the order of the
    stream and nothing else; and the counter has, for every class, the
    count it had before plus the number of observations of that class. *)
Theorem over_sampler_repeats_the_stream
    (observations : list (X * Label)) (self : RandomOverSampler) :
  (∃ counts,
     length counts = length observations
     ∧ classifier (fit_many rng_poisson observations self)
       = classifier self
         ++ concat (zip_with (λ count o, replicate count o) counts observations))
  ∧ (∀ c,
       counter_get (_actual_dist (fit_many rng_poisson observations self)) c
       = (counter_get (_actual_dist self) c
          + length (filter (λ o : X * Label, o.2 = c) observations))%nat).
Proof.
  revert self. induction observations as [| [x y] obs IH]; intros self.
  - split; [exists []; cbn; by rewrite app_nil_r | intros c; cbn; lia].
  - rewrite over_fit_many_cons. cbn [fst snd].
    destruct (IH (fit_one rng_poisson x y self).1)
      as [(counts & Hlen & Hlog) Hcount].
    split.
    + destruct (over_fit_one_classifier x y self) as (count & Hone & _).
      exists (count :: counts). split; [cbn; by rewrite Hlen |].
      rewrite Hlog, Hone. cbn. by rewrite <- app_assoc.
    + intros c. rewrite Hcount, over_fit_one_actual_dist.
      rewrite filter_cons. cbn [snd].
      destruct (decide (y = c)) as [-> | Hne].
      * rewrite ImblearnProps.counter_get_incr_same. cbn. lia.
      * rewrite ImblearnProps.counter_get_incr_other by done. lia.
Qed.

End RandomOverSampler.

(** *** The definitions at work *)

(** With three [false] counted and one [true], a fourth [false] makes
    [false] the pivot; the rate is 1 and the generator draws 2. *)
Example over_sampler_repeats :
  fit_one replay_counts 7%nat false
    (over_sampler [(false, 3%nat); (true, 1%nat)] (Some true) [2%nat])
  = ({| classifier := [(7%nat, false); (7%nat, false)];
        _rng := [];
        desired_dist := balanced;
        _actual_dist := [(false, 4%nat); (true, 1%nat)];
        _pivot := Some false |}, None).
Proof. reflexivity. Qed.

(** The pivot class goes to the classifier once and no count is drawn. *)
Example over_sampler_pivot :
  fit_one replay_counts 7%nat true
    (over_sampler [(false, 3%nat); (true, 1%nat)] (Some true) [2%nat])
  = ({| classifier := [(7%nat, true)];
        _rng := [2%nat];
        desired_dist := balanced;
        _actual_dist := [(false, 3%nat); (true, 2%nat)];
        _pivot := Some true |}, None).
Proof. reflexivity. Qed.

Lemma over_sampler_fit_one_witness :
  classifier
    (fit_one replay_counts 7%nat true
       (over_sampler [(false, 3%nat); (true, 1%nat)] (Some true) [2%nat])).1
  = [(7%nat, true)]
  ∧ (fit_one replay_counts 7%nat true
       (over_sampler [(false, 3%nat); (true, 1%nat)] (Some true) [2%nat])).2
    = None.
Proof.
  destruct (over_sampler_fit_one replay_counts 7%nat true
              (over_sampler [(false, 3%nat); (true, 1%nat)] (Some true)
                 [2%nat])) as (_ & Hpivot & _).
  destruct (Hpivot eq_refl) as (Hlog & _ & Hnone).
  split; [exact Hlog | exact Hnone].
Defined.

End OverSamplerProps.

(** ** The random sampler *)

Module SamplerProps.
Import Imblearn Sampler.

Section RandomSampler.
Context {F : Type} `{Number F}.
Context {X Label : Type} `{EqDecision Label}.
Context {Rng : Type} (rng_poisson : F → Rng → result nat * Rng).

Local Abbreviation RandomSampler :=
  (RandomSampler (F := F) (X := X) (Label := Label) (Rng := Rng)).

Lemma sampler_fit_one_counts (x : X) (y : Label) (self : RandomSampler) :
  _actual_dist (fit_one rng_poisson x y self).1
  = counter_incr (_actual_dist self) y
  ∧ _n (fit_one rng_poisson x y self).1 = (_n self + 1)%nat.
Proof.
  unfold fit_one. cbn. destruct (_ ≫= _) as [rate | e]; [| done].
  destruct (rng_poisson _ _) as [[count | e] rng]; done.
Qed.

Lemma sampler_fit_one_classifier (x : X) (y : Label) (self : RandomSampler) :
  ∃ count,
    classifier (fit_one rng_poisson x y self).1
    = classifier self ++ replicate count (x, y)
    ∧ ((fit_one rng_poisson x y self).2 ≠ None → count = 0%nat).
Proof.
  unfold fit_one. cbn. destruct (_ ≫= _) as [rate | e].
  2: { exists 0%nat. cbn. by rewrite app_nil_r. }
  destruct (rng_poisson _ _) as [[count | e] rng].
  - exists count. by split.
  - exists 0%nat. cbn. by rewrite app_nil_r.
Qed.

Lemma counter_incr_total (c : list (Label * nat)) (k : Label) :
  sum_list (counter_incr c k).*2 = S (sum_list c.*2).
Proof.
  induction c as [| [k' n] c IH]; csimpl; [done |].
  destruct (decide (k' = k)); csimpl; [lia |]. rewrite IH. lia.
Qed.

Lemma sampler_fit_many_cons (o : X * Label) (observations : list (X * Label))
    (self : RandomSampler) :
  fit_many rng_poisson (o :: observations) self
  = fit_many rng_poisson observations (fit_one rng_poisson o.1 o.2 self).1.
Proof. reflexivity. Qed.

(** X16.  Every call of the sampler's [fit_one], raising or not, adds one
    to [_n] and to the count of [y] and changes no other count; over a
    stream, [_n] and the sum of the counts both grow by the length of the
    stream, so that on a sampler started new [_n] is the number of
    observations and the sum of the counts. *)
Theorem sampler_counts_every_observation
    (observations : list (X * Label)) (self : RandomSampler) :
  (∀ x y,
      _n (fit_one rng_poisson x y self).1 = S (_n self)
      ∧ counter_get (_actual_dist (fit_one rng_poisson x y self).1) y
        = S (counter_get (_actual_dist self) y)
      ∧ ∀ y', y' ≠ y →
          counter_get (_actual_dist (fit_one rng_poisson x y self).1) y'
          = counter_get (_actual_dist self) y')
  ∧ _n (fit_many rng_poisson observations self)
    = (_n self + length observations)%nat
  ∧ sum_list (_actual_dist (fit_many rng_poisson observations self)).*2
    = (sum_list (_actual_dist self).*2 + length observations)%nat
  ∧ (∀ classifier0 rng desired rate,
       _n (fit_many rng_poisson observations
             (init classifier0 rng desired rate))
       = length observations
       ∧ sum_list (_actual_dist
                     (fit_many rng_poisson observations
                        (init classifier0 rng desired rate))).*2
         = length observations).
Proof.
  assert (∀ obs (s : RandomSampler),
            _n (fit_many rng_poisson obs s) = (_n s + length obs)%nat
            ∧ sum_list (_actual_dist (fit_many rng_poisson obs s)).*2
              = (sum_list (_actual_dist s).*2 + length obs)%nat) as Hstream.
  { induction obs as [| [x y] obs IH]; intros s.
    - cbn. lia.
    - rewrite sampler_fit_many_cons. cbn [fst snd].
      destruct (IH (fit_one rng_poisson x y s).1) as [-> ->].
      destruct (sampler_fit_one_counts x y s) as [-> ->].
      rewrite counter_incr_total. cbn. lia. }
  split; [| split; [apply Hstream | split; [apply Hstream |]]].
  - intros x y. destruct (sampler_fit_one_counts x y self) as [-> ->].
    split; [lia | split].
    + apply ImblearnProps.counter_get_incr_same.
    + intros y' Hne. by apply ImblearnProps.counter_get_incr_other.
  - intros classifier0 rng desired rate.
    destruct (Hstream observations (init classifier0 rng desired rate))
      as [-> ->]. done.
Qed.

(** X17.  Over a stream the sampler gives the classifier each observation
    some number of times, possibly none, in the order of the stream and
    nothing else; a call that raises gives it nothing. *)
Theorem sampler_repeats_the_stream
    (observations : list (X * Label)) (self : RandomSampler) :
  (∀ x y, ∃ count,
      classifier (fit_one rng_poisson x y self).1
      = classifier self ++ replicate count (x, y)
      ∧ ((fit_one rng_poisson x y self).2 ≠ None → count = 0%nat))
  ∧ ∃ counts,
      length counts = length observations
      ∧ classifier (fit_many rng_poisson observations self)
        = classifier self
          ++ concat (zip_with (λ count o, replicate count o) counts observations).
Proof.
  split; [intros x y; apply sampler_fit_one_classifier |].
  revert self. induction observations as [| [x y] obs IH]; intros self.
  - exists []. cbn. by rewrite app_nil_r.
  - rewrite sampler_fit_many_cons. cbn [fst snd].
    destruct (IH (fit_one rng_poisson x y self).1) as (counts & Hlen & Hlog).
    destruct (sampler_fit_one_classifier x y self) as (count & Hone & _).
    exists (count :: counts). split; [cbn; by rewrite Hlen |].
    rewrite Hlog, Hone. cbn. by rewrite <- app_assoc.
Qed.

Lemma dict_get_raises {V} (d : list (Label * V)) (k : Label) (e : exn) :
  dict_get d k = Raise e → e = KeyError.
Proof.
  induction d as [| [k' v] d IH]; simpl; intros Hget.
  - by injection Hget as <-.
  - destruct (decide (k' = k)); [done | by apply IH].
Qed.

Section NoZeroDivisors.
(** What is asked of the numbers: a positive count is not zero, and neither
    is the quotient of two numbers that are not zero. *)
Hypothesis count_not_zero : ∀ n, num_is_zero (num_of_nat (S n)) = false.
Hypothesis div_not_zero : ∀ a b,
  num_is_zero a = false → num_is_zero b = false →
  num_is_zero (num_div a b) = false.

(** X18.  The sampler's [fit_one] never divides by zero.  For a class that
    is not a key of [desired_dist] it raises [KeyError] after having counted
    the observation and before consulting the generator; for any other class
    it draws once, at the rate
    [sampling_rate * f[y] / (g[y] / _n)] of the counts just updated, and
    what the call does next is what the draw gives: that many calls of the
    classifier, or the exception of the draw. *)
Theorem sampler_draws_once (x : X) (y : Label) (self : RandomSampler) :
  match dict_get (desired_dist self) y with
  | Raise e =>
      e = KeyError
      ∧ fit_one rng_poisson x y self = (count_observation y self, Some KeyError)
  | Ok fy =>
      fit_one rng_poisson x y self
      = match
          rng_poisson
            (num_div (num_mul (sampling_rate self) fy)
               (num_div (num_of_nat (S (counter_get (_actual_dist self) y)))
                  (num_of_nat (S (_n self)))))
            (_rng self)
        with
        | (Ok count, rng) =>
            (call_classifier count x y (with_rng rng (count_observation y self)),
             None)
        | (Raise e, rng) => (with_rng rng (count_observation y self), Some e)
        end
  end.
Proof.
  destruct (dict_get (desired_dist self) y) as [fy | e] eqn:Hget.
  - unfold fit_one. cbn. rewrite Hget. cbn.
    rewrite ImblearnProps.counter_get_incr_same, Nat.add_1_r.
    unfold truediv. rewrite !count_not_zero. cbn.
    rewrite div_not_zero by apply count_not_zero.
    by destruct (rng_poisson _ _) as [[count | e] rng].
  - pose proof (dict_get_raises _ _ _ Hget) as ->. split; [done |].
    unfold fit_one. cbn. by rewrite Hget.
Qed.

End NoZeroDivisors.

End RandomSampler.

(** *** The definitions at work *)

(** The first observation of a new sampler: the share of its class is 1,
    the rate 1/2, and the generator draws 2. *)
Lemma sampler_draws_once_witness :
  fit_one replay_counts 7%nat true (mixed_sampler [] 0 [2%nat; 5%nat])
  = ({| classifier := [(7%nat, true); (7%nat, true)];
        _rng := [5%nat];
        desired_dist := balanced;
        sampling_rate := 1%Q;
        _actual_dist := [(true, 1%nat)];
        _n := 1 |}, None).
Proof.
  exact (sampler_draws_once replay_counts ImblearnProps.Q_count_not_zero
           ImblearnProps.Q_div_not_zero 7%nat true
           (mixed_sampler [] 0 [2%nat; 5%nat])).
Defined.

Lemma sampler_counts_every_observation_witness :
  counter_get
    (_actual_dist
       (fit_one replay_counts 7%nat true
          (mixed_sampler [(false, 3%nat)] 3 [2%nat])).1) false
  = 3%nat.
Proof.
  destruct (sampler_counts_every_observation replay_counts []
              (mixed_sampler [(false, 3%nat)] 3 [2%nat])) as (Hone & _).
  destruct (Hone 7%nat true) as (_ & _ & Hother).
  apply (Hother false). discriminate.
Defined.

(** A class the desired distribution does not list: the call raises and
    the classifier is given nothing. *)
Lemma sampler_repeats_the_stream_witness :
  classifier
    (fit_one replay_counts 7%nat true
       (init (X := nat) [] [2%nat] [(false, 1%Q)] 1%Q)).1
  = [].
Proof.
  destruct (sampler_repeats_the_stream (X := nat) replay_counts []
              (init [] [2%nat] [(false, 1%Q)] 1%Q)) as [Hone _].
  destruct (Hone 7%nat true) as (count & Hlog & Hzero).
  rewrite Hlog, Hzero; [reflexivity |].
  intros Heq. vm_compute in Heq. discriminate Heq.
Defined.

End SamplerProps.
